(** * RLVR-World video tokenizer: the training script and the compressive FSQ model

    A shallow embedding of
    - [vid_wm/ivideogpt/train_tokenizer.py]: [AverageMeter], the checkpoint
      naming of [save_checkpoint] and the resume block of [main], the loss
      composition of a generator step, [gradient_penalty];
    - [vid_wm/verl/ivideogpt/ctx_tokenizer/compressive_vq_model.py]:
      [CompressiveVQModelFSQ.__init__], [decode], [tokenize], [detokenize].

    Python floats and tensor entries are idealised as exact numbers: rationals
    [Q] wherever the code only adds, multiplies and divides, reals [R] where a
    square root is taken.  Raised exceptions are results of type [result]. *)

From Stdlib Require Import Ascii String DecimalString.
From Stdlib Require Import List ZArith QArith Qround Qabs Qfield Lia Bool Arith.
From Stdlib Require Import Sorted FinFun.
From Stdlib Require Import Reals Lra.
From Stdlib Require Lqa DecimalZ DecimalPos DecimalFacts.
Import ListNotations.

Set Implicit Arguments.

Close Scope Q_scope.
Close Scope R_scope.
Open Scope nat_scope.

(** ** Python exceptions as results *)

Inductive exn : Type :=
| AssertionError
| ZeroDivisionError
| ValueError
| IndexError
| TypeError
| RuntimeError.

Inductive result (A : Type) : Type :=
| Ok (a : A)
| Raise (e : exn).

Arguments Ok {A} a.
Arguments Raise {A} e.

Definition bind {A B : Type} (r : result A) (k : A -> result B) : result B :=
  match r with
  | Ok a => k a
  | Raise e => Raise e
  end.

Declare Scope py_scope.
Delimit Scope py_scope with py.
Notation "x <- r ;; k" := (bind r (fun x => k))
  (at level 61, r at next level, right associativity) : py_scope.
Notation "' p <- r ;; k" := (bind r (fun x => match x with p => k end))
  (at level 61, p pattern, r at next level, right associativity) : py_scope.

Definition returns {A : Type} (r : result A) : bool :=
  match r with Ok _ => true | Raise _ => false end.

(** ** [AverageMeter] (train_tokenizer.py, lines 49-65) *)

Module AverageMeter.

Record t : Type := mk { val : Q; avg : Q; sum : Q; count : Z }.

(** [reset] assigns the four attributes, whatever they held. *)
Definition reset (_ : t) : t := mk 0 0 0 0.

(** [__init__] only calls [reset]. *)
Definition init : t := reset (mk 0 0 0 0).

(** [update(val, n)]: three assignments, then [self.sum / self.count].
    Python's division raises [ZeroDivisionError] on a zero count; the three
    earlier assignments have happened by then and [avg] keeps its old
    value.  The second component tells whether the call raised. *)
Definition update (m : t) (v : Q) (n : Z) : t * option exn :=
  let m1 := mk v (avg m) (sum m) (count m) in
  let m2 := mk (val m1) (avg m1) (sum m1 + v * inject_Z n)%Q (count m1) in
  let m3 := mk (val m2) (avg m2) (sum m2) (count m2 + n)%Z in
  if (count m3 =? 0)%Z
  then (m3, Some ZeroDivisionError)
  else (mk (val m3) (sum m3 / inject_Z (count m3))%Q (sum m3) (count m3), None).

(** [update(val)] with the default [n=1]. *)
Definition update1 (m : t) (v : Q) : t * option exn := update m v 1%Z.

(** The meter after a sequence of calls has been made, each call acting on
    the object the previous one left (also when that one raised). *)
Definition run (m : t) (calls : list (Q * Z)) : t :=
  fold_left (fun m c => fst (update m (fst c) (snd c))) calls m.

(** Does some call of the sequence raise? *)
Fixpoint raises (m : t) (calls : list (Q * Z)) : bool :=
  match calls with
  | [] => false
  | c :: rest =>
      match update m (fst c) (snd c) with
      | (_, Some _) => true
      | (m', None) => raises m' rest
      end
  end.

(** The quantities the invariant speaks of, by recursion on the calls. *)
Fixpoint total_count (calls : list (Q * Z)) : Z :=
  match calls with
  | [] => 0%Z
  | c :: rest => (snd c + total_count rest)%Z
  end.

Fixpoint weighted_sum (calls : list (Q * Z)) : Q :=
  match calls with
  | [] => 0%Q
  | c :: rest => (fst c * inject_Z (snd c) + weighted_sum rest)%Q
  end.

Definition last_val (calls : list (Q * Z)) (d : Q) : Q :=
  last (map fst calls) d.

End AverageMeter.

(** ** Tensors of the substrate: a shape and the entries in row-major order

    Only what the two programs use of the tensor library is modelled, with the
    library's own failure cases ([RuntimeError], [IndexError]).  Sizes are
    natural numbers; the one negative size the programs write, [-1] in a
    [reshape], is [None]. *)

Record tensor (A : Type) : Type := Tensor { shape : list nat; data : list A }.

Arguments Tensor {A} shape data.

Module T.

Definition numel (s : list nat) : nat := fold_right Nat.mul 1 s.

Definition ndim {A} (x : tensor A) : nat := length (shape x).

(** A tensor whose entries are as many as its shape says. *)
Definition wf {A} (x : tensor A) : Prop := length (data x) = numel (shape x).

Definition scalar {A} (a : A) : tensor A := Tensor [] [a].

Definition full {A} (s : list nat) (a : A) : tensor A :=
  Tensor s (repeat a (numel s)).

(** [x.shape[i]] and [x.shape[-k]]. *)
Definition size {A} (x : tensor A) (i : nat) : result nat :=
  match nth_error (shape x) i with
  | Some n => Ok n
  | None => Raise IndexError
  end.

Definition size_from_end {A} (x : tensor A) (k : nat) : result nat :=
  if (k <=? ndim x)%nat && (1 <=? k)%nat then size x (ndim x - k) else Raise IndexError.

(** [x.shape[-3:]]: a slice never raises. *)
Definition last3 {A} (x : tensor A) : list nat := skipn (ndim x - 3) (shape x).

(** The sizes a [reshape] ends with: at most one [-1], inferred from the
    number of entries; a zero product next to [-1] is refused as ambiguous
    or invalid. *)
Definition known (dims : list (option nat)) : list nat :=
  flat_map (fun d => match d with Some n => [n] | None => [] end) dims.

Definition holes (dims : list (option nat)) : nat :=
  length (filter (fun d => match d with None => true | Some _ => false end) dims).

Definition infer_size (dims : list (option nat)) (n : nat) : result (list nat) :=
  let newsize := numel (known dims) in
  match holes dims with
  | O => if (n =? newsize)%nat then Ok (known dims) else Raise RuntimeError
  | S O =>
      if (0 <? newsize)%nat && (n mod newsize =? 0)%nat
      then Ok (map (fun d => match d with Some k => k | None => (n / newsize)%nat end) dims)
      else Raise RuntimeError
  | _ => Raise RuntimeError
  end.

Definition reshape {A} (dims : list (option nat)) (x : tensor A) : result (tensor A) :=
  (s <- infer_size dims (numel (shape x)) ;; Ok (Tensor s (data x)))%py.

(** Row-major positions. *)
Fixpoint unravel (s : list nat) (i : nat) : list nat :=
  match s with
  | [] => []
  | _ :: rest => (i / numel rest)%nat :: unravel rest (i mod numel rest)
  end.

Fixpoint ravel (s idx : list nat) : nat :=
  match s, idx with
  | _ :: rest, i :: idx' => (i * numel rest + ravel rest idx')%nat
  | _, _ => O
  end.

(** The tensor of shape [s'] whose entry at [J] is the entry of [x] at
    [src J]. *)
Definition gather {A} (x : tensor A) (s' : list nat) (src : list nat -> list nat) : tensor A :=
  Tensor s'
    (flat_map (fun o => match nth_error (data x) (ravel (shape x) (src (unravel s' o))) with
                        | Some a => [a]
                        | None => []
                        end)
              (seq 0 (numel s'))).

Fixpoint find_index (k : nat) (l : list nat) : nat :=
  match l with
  | [] => O
  | x :: rest => if (x =? k)%nat then O else S (find_index k rest)
  end.

Definition is_perm (perm : list nat) : bool :=
  forallb (fun k => existsb (Nat.eqb k) perm) (seq 0 (length perm)).

(** [x.permute(perm)]: dimension [k] of the result is dimension [perm[k]]
    of [x]. *)
Definition permute {A} (perm : list nat) (x : tensor A) : result (tensor A) :=
  if (length perm =? ndim x)%nat && is_perm perm
  then Ok (gather x (map (fun k => nth k (shape x) O) perm)
             (fun J => map (fun m => nth (find_index m perm) J O) (seq 0 (ndim x))))
  else Raise RuntimeError.

(** [x.transpose(-1, -2)]. *)
Definition transpose_last2 {A} (x : tensor A) : result (tensor A) :=
  let n := ndim x in
  if (2 <=? n)%nat
  then permute (seq 0 (n - 2) ++ [n - 1; n - 2])%nat x
  else Raise IndexError.

(** [x.unsqueeze(-1)], [x.unsqueeze(1)], [x.squeeze(-1)]. *)
Definition unsqueeze_last {A} (x : tensor A) : tensor A :=
  Tensor (shape x ++ [1%nat]) (data x).

Definition unsqueeze1 {A} (x : tensor A) : result (tensor A) :=
  match shape x with
  | [] => Raise IndexError
  | n :: rest => Ok (Tensor (n :: 1%nat :: rest) (data x))
  end.

Definition squeeze_last {A} (x : tensor A) : tensor A :=
  match rev (shape x) with
  | 1%nat :: rest => Tensor (rev rest) (data x)
  | _ => x
  end.

(** [x.unfold(dim, size, step)]: windows along [dim], the window entries in
    a new last dimension. *)
Definition unfold {A} (dim sz step : nat) (x : tensor A) : result (tensor A) :=
  match nth_error (shape x) dim with
  | None => Raise IndexError
  | Some n =>
      if (step =? 0)%nat then Raise RuntimeError
      else if (n <? sz)%nat then Raise RuntimeError
      else
        let windows := ((n - sz) / step + 1)%nat in
        let s' := firstn dim (shape x) ++ windows :: skipn (S dim) (shape x) ++ [sz] in
        Ok (gather x s'
              (fun J => let I := removelast J in
                        firstn dim I ++ (nth dim I O * step + last J O)%nat :: skipn (S dim) I))
  end.

(** [x.repeat(reps)]: missing leading dimensions count as 1. *)
Definition repeat_ {A} (reps : list nat) (x : tensor A) : result (tensor A) :=
  if (ndim x <=? length reps)%nat
  then
    let s := repeat 1%nat (length reps - ndim x) ++ shape x in
    let s' := map (fun p => (fst p * snd p)%nat) (combine s reps) in
    Ok (gather (Tensor s (data x)) s'
          (fun J => map (fun p => (fst p mod snd p)%nat) (combine J s)))
  else Raise RuntimeError.

(** The entries in consecutive blocks of [n]. *)
Fixpoint chunks {A} (n : nat) (count : nat) (l : list A) : list (list A) :=
  match count with
  | O => []
  | S c => firstn n l :: chunks n c (skipn n l)
  end.

(** [x[:, :k]] and [x[:, k:]]: slices clamp at the size of the dimension. *)
Definition slice1_to {A} (k : nat) (x : tensor A) : result (tensor A) :=
  match shape x with
  | b :: t :: rest =>
      let k' := Nat.min k t in
      Ok (Tensor (b :: k' :: rest)
            (flat_map (firstn (k' * numel rest)) (chunks (t * numel rest) b (data x))))
  | _ => Raise IndexError
  end.

Definition slice1_from {A} (k : nat) (x : tensor A) : result (tensor A) :=
  match shape x with
  | b :: t :: rest =>
      let k' := Nat.min k t in
      Ok (Tensor (b :: (t - k')%nat :: rest)
            (flat_map (skipn (k' * numel rest)) (chunks (t * numel rest) b (data x))))
  | _ => Raise IndexError
  end.

(** [torch.cat([x, y], dim=1)]. *)
Definition list_nat_eqb (a b : list nat) : bool :=
  (length a =? length b)%nat && forallb (fun p => (fst p =? snd p)%nat) (combine a b).

Definition cat1 {A} (x y : tensor A) : result (tensor A) :=
  match shape x, shape y with
  | b :: t1 :: rest, b' :: t2 :: rest' =>
      if (b =? b')%nat && list_nat_eqb rest rest'
      then Ok (Tensor (b :: (t1 + t2)%nat :: rest)
                 (concat (map (fun p => fst p ++ snd p)
                            (combine (chunks (t1 * numel rest) b (data x))
                                     (chunks (t2 * numel rest) b (data y))))))
      else Raise RuntimeError
  | _, _ => Raise RuntimeError
  end.

(** [torch.unique(x)] on an integer tensor: the distinct entries in
    increasing order, as a one-dimensional tensor. *)
Fixpoint insert_unique (z : Z) (l : list Z) : list Z :=
  match l with
  | [] => [z]
  | y :: rest =>
      if (z <? y)%Z then z :: l
      else if (z =? y)%Z then l
      else y :: insert_unique z rest
  end.

Definition unique (x : tensor Z) : tensor Z :=
  let u := fold_right insert_unique [] (data x) in
  Tensor [length u] u.

Definition mapT {A B} (f : A -> B) (x : tensor A) : tensor B :=
  Tensor (shape x) (map f (data x)).

End T.

(** ** Python integers and object attributes *)

(** [a // b] and [a / b] on integers. *)
Definition floordiv (a b : Z) : result Z :=
  if (b =? 0)%Z then Raise ZeroDivisionError else Ok (a / b)%Z.

Definition truediv (a b : nat) : result Q :=
  if b =? 0 then Raise ZeroDivisionError
  else Ok (inject_Z (Z.of_nat a) / inject_Z (Z.of_nat b))%Q.

(** An integer handed to the tensor library as a size of [reshape] ([-1]
    asks for inference) or as a repetition count. *)
Definition py_dim (z : Z) : result (option nat) :=
  if (z =? -1)%Z then Ok None
  else if (z <? 0)%Z then Raise RuntimeError
  else Ok (Some (Z.to_nat z)).

Definition py_count (z : Z) : result nat :=
  if (z <? 0)%Z then Raise RuntimeError else Ok (Z.to_nat z).

Fixpoint mapM {A B : Type} (f : A -> result B) (l : list A) : result (list B) :=
  match l with
  | [] => Ok []
  | a :: rest => (b <- f a ;; bs <- mapM f rest ;; Ok (b :: bs))%py
  end.

(** An attribute that an object gets only when some method assigns it. *)
Inductive attr (A : Type) : Type :=
| Unset
| Holds (a : A).

Arguments Unset {A}.
Arguments Holds {A} a.

(** Methods that assign attributes before they may raise: the object after
    the call comes with the result. *)
Definition M (S A : Type) : Type := S -> S * result A.

Definition retM {S A} (a : A) : M S A := fun s => (s, Ok a).

Definition bindM {S A B} (m : M S A) (k : A -> M S B) : M S B :=
  fun s => match m s with
           | (s', Ok a) => k a s'
           | (s', Raise e) => (s', Raise e)
           end.

Definition liftM {S A} (r : result A) : M S A := fun s => (s, r).

Definition getM {S} : M S S := fun s => (s, Ok s).

Definition modifyM {S} (f : S -> S) : M S unit := fun s => (f s, Ok tt).

Declare Scope method_scope.
Delimit Scope method_scope with method.
Notation "x <- m ;; k" := (bindM m (fun x => k))
  (at level 61, m at next level, right associativity) : method_scope.
Notation "' p <- m ;; k" := (bindM m (fun x => match x with p => k end))
  (at level 61, p pattern, m at next level, right associativity) : method_scope.
Notation "m ;;; k" := (bindM m (fun _ => k))
  (at level 61, right associativity) : method_scope.

(** ** [CompressiveVQModelFSQ] (compressive_vq_model.py) *)

Module CompressiveVQModelFSQ.

Definition net : Type := tensor Q -> result (tensor Q).
Definition feature_net : Type := tensor Q -> result (tensor Q * list (tensor Q)).
Definition cond_net : Type := tensor Q -> list (tensor Q) -> result (tensor Q).

(** The quantizer object.  Its class [FSQ] is imported from
    [ivideogpt.tokenizer.finite_scalar_quantize], which is not among the
    sources: calling it gives the quantized latents and their indices,
    [indices_to_codes] maps indices back. *)
Record FSQ : Type := {
  levels : list nat;
  call : tensor Q -> result (tensor Q * tensor Z);
  indices_to_codes : tensor Z -> result (tensor Q)
}.

(** The constructor arguments that the claims involve, and the imported
    constructors and functions that [__init__] calls. *)
Record config : Type := {
  cfg_latent_channels : nat;
  cfg_vq_fsq_levels : nat + list nat;       (* an [int], or the levels themselves *)
  cfg_dyn_fsq_levels : nat + list nat;
  cfg_context_length : nat;
  cfg_patch_size : nat
}.

Record imports : Type := {
  get_fsq_levels : nat -> list nat;
  new_FSQ : list nat -> FSQ;
  new_Conv2d : nat -> nat -> net;            (* in_channels, out_channels; kernel 1 *)
  new_Linear : nat -> nat -> net;            (* in_features, out_features *)
  new_Encoder : config -> feature_net;
  new_ConditionalEncoder : config -> cond_net;
  new_Decoder : config -> feature_net;
  new_ConditionalDecoder : config -> cond_net
}.

Record model : Type := {
  latent_channels : nat;
  dyna_latent_channels : nat;
  context_length : nat;
  num_vq_embeddings : nat;
  num_dyn_embeddings : nat;
  vq_fsq_levels : list nat;
  dyn_fsq_levels : list nat;
  patch_size : nat;
  cond_encoder : cond_net;
  encoder : feature_net;
  quant_conv : net;
  quantize : FSQ;
  post_quant_conv : net;
  quant_linear : net;
  dynamics_quantize : FSQ;
  post_quant_linear : net;
  cond_decoder : cond_net;
  decoder : feature_net
}.

(** The attributes that [forward] and [decode] assign on the object. *)
Record attrs : Type := {
  segment_len : attr (option nat);
  code_util : attr Q;
  unique_code : attr (tensor Z);
  world_code_util : attr Q;
  world_unique_code : attr (tensor Z)
}.

Definition fresh : attrs :=
  {| segment_len := Unset; code_util := Unset; unique_code := Unset;
     world_code_util := Unset; world_unique_code := Unset |}.

Definition prod (l : list nat) : nat := fold_right Nat.mul 1 l.

(** [__init__], lines 62-149.  [num_vq_embeddings] is bound only inside the
    [isinstance(..., int)] branch, so a list of levels makes line 74 raise
    (an [UnboundLocalError], a [RuntimeError] here). *)
Definition init (env : imports) (cfg : config) : result model :=
  match cfg_vq_fsq_levels cfg, cfg_dyn_fsq_levels cfg with
  | inl vq, inl dyn =>
      let vq_fsq_levels := get_fsq_levels env vq in
      let num_vq_embeddings := prod vq_fsq_levels in
      let dyn_fsq_levels := get_fsq_levels env dyn in
      let num_dyn_embeddings := prod dyn_fsq_levels in
      let latent := cfg_latent_channels cfg in
      let p := cfg_patch_size cfg in
      Ok {| latent_channels := latent;
            dyna_latent_channels := latent;
            context_length := cfg_context_length cfg;
            num_vq_embeddings := num_vq_embeddings;
            num_dyn_embeddings := num_dyn_embeddings;
            vq_fsq_levels := vq_fsq_levels;
            dyn_fsq_levels := dyn_fsq_levels;
            patch_size := p;
            cond_encoder := new_ConditionalEncoder env cfg;
            encoder := new_Encoder env cfg;
            quant_conv := new_Conv2d env latent (length vq_fsq_levels);
            quantize := new_FSQ env vq_fsq_levels;
            post_quant_conv := new_Conv2d env (length vq_fsq_levels) latent;
            quant_linear := new_Linear env (latent * p * p) (length dyn_fsq_levels);
            dynamics_quantize := new_FSQ env dyn_fsq_levels;
            post_quant_linear := new_Linear env (length dyn_fsq_levels) (latent * p * p);
            cond_decoder := new_ConditionalDecoder env cfg;
            decoder := new_Decoder env cfg |}
  | _, _ => Raise RuntimeError
  end.

Definition set_segment_len (v : option nat) (s : attrs) : attrs :=
  {| segment_len := Holds v; code_util := code_util s; unique_code := unique_code s;
     world_code_util := world_code_util s; world_unique_code := world_unique_code s |}.

Definition set_code_util (v : Q) (s : attrs) : attrs :=
  {| segment_len := segment_len s; code_util := Holds v; unique_code := unique_code s;
     world_code_util := world_code_util s; world_unique_code := world_unique_code s |}.

Definition set_unique_code (v : tensor Z) (s : attrs) : attrs :=
  {| segment_len := segment_len s; code_util := code_util s; unique_code := Holds v;
     world_code_util := world_code_util s; world_unique_code := world_unique_code s |}.

Definition set_world_code_util (v : Q) (s : attrs) : attrs :=
  {| segment_len := segment_len s; code_util := code_util s; unique_code := unique_code s;
     world_code_util := Holds v; world_unique_code := world_unique_code s |}.

Definition set_world_unique_code (v : tensor Z) (s : attrs) : attrs :=
  {| segment_len := segment_len s; code_util := code_util s; unique_code := unique_code s;
     world_code_util := world_code_util s; world_unique_code := Holds v |}.

(** Reading [self.segment_len]: an [AttributeError] before [forward] has
    assigned it (a [RuntimeError] here); [None] is refused where it is used
    as a number. *)
Definition read_segment_len (s : attrs) : result Z :=
  match segment_len s with
  | Unset => Raise RuntimeError
  | Holds None => Raise TypeError
  | Holds (Some n) => Ok (Z.of_nat n)
  end.

(** The feature maps of the context frames, repeated for every future
    frame.  The source writes the two comprehensions out in [decode],
    [forward], [tokenize] and [detokenize]; [t] is the context length and
    [n] the number of future frames per sample.

    [f.reshape(B, t, f.shape[-3:]).unsqueeze(1).repeat(1, n, 1, 1, 1, 1)
      .reshape(-1, t, f.shape[-3:])] *)
Definition repeat_context (B : Z) (t : nat) (n : result Z) (f : tensor Q) : result (tensor Q) :=
  (b <- py_dim B ;;
   f1 <- T.reshape (b :: Some t :: map Some (T.last3 f)) f ;;
   f2 <- T.unsqueeze1 f1 ;;
   k <- (z <- n ;; py_count z) ;;
   f3 <- T.repeat_ [1; k; 1; 1; 1; 1] f2 ;;
   T.reshape (None :: Some t :: map Some (T.last3 f)) f3)%py.

(** [f.unsqueeze(1).repeat(1, n, 1, 1, 1).reshape(-1, f.shape[-3:])] *)
Definition repeat_single (n : result Z) (f : tensor Q) : result (tensor Q) :=
  (f1 <- T.unsqueeze1 f ;;
   k <- (z <- n ;; py_count z) ;;
   f2 <- T.repeat_ [1; k; 1; 1; 1] f1 ;;
   T.reshape (None :: map Some (T.last3 f)) f2)%py.

(** The branch on the context length around them: [rows] is what the
    source divides by [n] to get [B] (the batch of the dynamics path).
    [n] is an expression that may raise ([self.segment_len] in [decode]);
    the second branch evaluates it once per feature map. *)
Definition condition_features (t : nat) (branch_on : nat) (rows : result nat) (n : result Z)
           (cond_features : list (tensor Q)) : result (list (tensor Q)) :=
  if 1 <? branch_on
  then (r <- rows ;;
        z <- n ;;
        B <- floordiv (Z.of_nat r) z ;;
        mapM (repeat_context B t n) cond_features)%py
  else mapM (repeat_single n) cond_features.

(** The batch [B] after that branch: reassigned only when the context is
    longer than one frame. *)
Definition batch_after (branch_on : nat) (B : nat) (rows : result nat) (n : Z) : result Z :=
  if 1 <? branch_on
  then (r <- rows ;; floordiv (Z.of_nat r) n)%py
  else Ok (Z.of_nat B).

(** Patches of the dynamics latents, lines 230-231 and 278-280:
    [[B, C, H, W] => [B, H/P * W/P, P * P * C]]. *)
Definition patchify (p : nat) (d : tensor Q) : result (tensor Q) :=
  (d1 <- T.permute [0; 2; 3; 1] d ;;
   d2 <- T.unfold 1 p p d1 ;;
   d3 <- T.unfold 2 p p d2 ;;
   d4 <- T.permute [0; 1; 2; 4; 5; 3] d3 ;;
   n0 <- T.size d4 0 ;;
   n1 <- T.size d4 1 ;;
   n2 <- T.size d4 2 ;;
   T.reshape [Some n0; Some (n1 * n2); None] d4)%py.

(** De-patchify, lines 183-186 and 316-319; the einsum
    ["nhwpqc->nchpwq"] is the permutation [0, 5, 1, 3, 2, 4] of a
    six-dimensional operand. *)
Definition depatchify (p c : nat) (quant2 quant2_d : tensor Q) : result (tensor Q) :=
  (h <- T.size_from_end quant2 2 ;;
   w <- T.size_from_end quant2 1 ;;
   n <- T.size quant2_d 0 ;;
   hp <- floordiv (Z.of_nat h) (Z.of_nat p) ;;
   wp <- floordiv (Z.of_nat w) (Z.of_nat p) ;;
   q1 <- T.reshape [Some n; Some (Z.to_nat hp); Some (Z.to_nat wp); Some p; Some p; Some c] quant2_d ;;
   q2 <- T.permute [0; 5; 1; 3; 2; 4] q1 ;;
   n' <- T.size q2 0 ;;
   T.reshape [Some n'; Some c; Some h; Some w] q2)%py.

(** [[B, L, D] => [B, D, L, 1]], lines 172 and 286. *)
Definition to_quantizer_layout (d : tensor Q) : result (tensor Q) :=
  (d1 <- T.transpose_last2 d ;; Ok (T.unsqueeze_last d1))%py.

Record CompressiveVQDecoderOutput : Type := {
  sample : tensor Q;
  ref_sample : option (tensor Q);
  commit_loss : option (tensor Q);
  dyn_commit_loss : option (tensor Q)
}.

(** [decode], lines 161-208 ([return_dict] only chooses between the record
    and a tuple of the same four values).  Both pairs of bookkeeping
    attributes are computed from [info]. *)
Definition decode (self : model) (h d : tensor Q) : M attrs CompressiveVQDecoderOutput :=
  (' (quant, info) <- liftM (call (quantize self) h) ;;
   let commit_loss := T.scalar 0%Q in
   cu <- liftM (n <- T.size (T.unique info) 0 ;; truediv n (num_vq_embeddings self))%py ;;
   modifyM (set_code_util cu) ;;;
   modifyM (set_unique_code (T.unique info)) ;;;
   d' <- liftM (to_quantizer_layout d) ;;
   ' (quant_d, dyn_info) <- liftM (call (dynamics_quantize self) d') ;;
   let dyn_commit_loss := T.scalar 0%Q in
   wcu <- liftM (n <- T.size (T.unique info) 0 ;; truediv n (num_vq_embeddings self))%py ;;
   modifyM (set_world_code_util wcu) ;;;
   modifyM (set_world_unique_code (T.unique info)) ;;;
   quant_d <- liftM (T.transpose_last2 (T.squeeze_last quant_d)) ;;
   quant2 <- liftM (post_quant_conv self quant) ;;
   quant2_d <- liftM (post_quant_linear self quant_d) ;;
   quant2_d <- liftM (depatchify (patch_size self) (dyna_latent_channels self) quant2 quant2_d) ;;
   ' (ref_dec, cond_features) <- liftM (decoder self quant2) ;;
   st <- getM ;;
   cond_features <- liftM (condition_features (context_length self) (context_length self)
                             (T.size quant2_d 0) (read_segment_len st) cond_features) ;;
   dec <- liftM (cond_decoder self quant2_d cond_features) ;;
   retM {| sample := dec; ref_sample := Some ref_dec;
           commit_loss := Some commit_loss; dyn_commit_loss := Some dyn_commit_loss |})%method.

(** [forward], lines 210-247. *)
Definition forward (self : model) (sample_ : tensor Q) (return_loss : bool)
           (segment_len_ : option nat) (dyn_sample : tensor Q)
  : M attrs CompressiveVQDecoderOutput :=
  (modifyM (set_segment_len segment_len_) ;;;
   ' (h, cond_features) <- liftM (encoder self sample_) ;;
   st <- getM ;;
   cond_features <- liftM (condition_features (context_length self) (context_length self)
                             (T.size dyn_sample 0) (read_segment_len st) cond_features) ;;
   h <- liftM (quant_conv self h) ;;
   d <- liftM (cond_encoder self dyn_sample cond_features) ;;
   d <- liftM (patchify (patch_size self) d) ;;
   d <- liftM (quant_linear self d) ;;
   dec <- decode self h d ;;
   if return_loss then retM dec
   else retM {| sample := sample dec; ref_sample := None;
                commit_loss := None; dyn_commit_loss := None |})%method.

(** [tokenize], lines 249-293: first what follows the [assert]. *)
Definition tokenize_body (self : model) (pixel_values : tensor Q) (context_length_ : nat)
  : result (tensor Z * tensor Z) :=
    match shape pixel_values with
    | [B; T_; C; H; W] =>
        (context_frames <- (x <- T.slice1_to context_length_ pixel_values ;;
                            T.reshape [None; Some C; Some H; Some W] x) ;;
         future_frames <- (x <- T.slice1_from context_length_ pixel_values ;;
                           T.reshape [None; Some C; Some H; Some W] x) ;;
         let future_length := (Z.of_nat T_ - Z.of_nat context_length_)%Z in
         (* encode context frames *)
         ' (h, cond_features) <- encoder self context_frames ;;
         B' <- batch_after (context_length self) B (T.size future_frames 0) future_length ;;
         cond_features <- condition_features (context_length self) (context_length self)
                            (T.size future_frames 0) (Ok future_length) cond_features ;;
         h <- quant_conv self h ;;
         (* encode future frames conditioned on context *)
         d <- cond_encoder self future_frames cond_features ;;
         d <- patchify (patch_size self) d ;;
         d <- quant_linear self d ;;
         (* quantize *)
         ' (quant, info) <- call (quantize self) h ;;
         d <- to_quantizer_layout d ;;
         ' (quant_d, info_d) <- call (dynamics_quantize self) d ;;
         (* flatten into tokens *)
         b <- py_dim B' ;;
         indices_c <- T.reshape [b; Some context_length_; None] info ;;
         fl <- py_dim future_length ;;
         indices_d <- T.reshape [b; fl; None] info_d ;;
         Ok (indices_c, indices_d))%py
    | _ => Raise ValueError
    end.

Definition tokenize (self : model) (pixel_values : tensor Q) (context_length_ : nat)
  : result (tensor Z * tensor Z) :=
  if negb (context_length_ =? context_length self) then Raise AssertionError
  else tokenize_body self pixel_values context_length_.

(** The two hard-wired resolutions of [detokenize], lines 299-300. *)
Definition ctx_res : nat * nat := (32, 40).
Definition dyn_res : nat * nat := (8, 10).

Definition cache_t : Type := tensor Q * list (tensor Q).

(** [detokenize], lines 295-346: first what follows the [assert]. *)
Definition detokenize_body (self : model) (indices_c indices_d : tensor Z)
           (context_length_ : nat) (cache : option cache_t) (return_cache : bool)
  : result (tensor Q * option cache_t) :=
    (future_length <- T.size indices_d 1 ;;
     B <- T.size indices_c 0 ;;
     (* extract embeddings *)
     indices_c <- T.reshape [Some B; None] indices_c ;;
     indices_d <- T.reshape [Some B; None] indices_d ;;
     quant <- indices_to_codes (quantize self) indices_c ;;
     quant <- (q <- T.reshape [Some (B * context_length_); Some (fst ctx_res); Some (snd ctx_res);
                               Some (length (vq_fsq_levels self))] quant ;;
               T.permute [0; 3; 1; 2] q) ;;
     quant2 <- post_quant_conv self quant ;;
     quant_d <- indices_to_codes (dynamics_quantize self) indices_d ;;
     quant_d <- T.reshape [None; Some (fst dyn_res * snd dyn_res);
                           Some (length (dyn_fsq_levels self))] quant_d ;;
     quant2_d <- post_quant_linear self quant_d ;;
     quant2_d <- depatchify (patch_size self) (dyna_latent_channels self) quant2 quant2_d ;;
     (* decode context frames *)
     ' (context_dec, cond_features) <- match cache with
                                       | Some c => Ok c
                                       | None => decoder self quant2
                                       end ;;
     B' <- batch_after context_length_ B (T.size quant2_d 0) (Z.of_nat future_length) ;;
     cond_features <- condition_features context_length_ context_length_
                        (T.size quant2_d 0) (Ok (Z.of_nat future_length)) cond_features ;;
     (* decode future frames conditioned on context *)
     dec <- cond_decoder self quant2_d cond_features ;;
     b <- py_dim B' ;;
     context_dec <- T.reshape (b :: Some context_length_ :: map Some (T.last3 context_dec))
                      context_dec ;;
     dec <- T.reshape (b :: Some future_length :: map Some (T.last3 dec)) dec ;;
     out <- T.cat1 context_dec dec ;;
     if return_cache then Ok (out, Some (context_dec, cond_features))
     else Ok (out, None))%py.

Definition detokenize (self : model) (indices_c indices_d : tensor Z) (context_length_ : nat)
           (cache : option cache_t) (return_cache : bool)
  : result (tensor Q * option cache_t) :=
  if negb (context_length_ =? context_length self) then Raise AssertionError
  else detokenize_body self indices_c indices_d context_length_ cache return_cache.

(** *** What the claims say in terms of frames

    Frames [t0, t0 + n) of every sample of a [[B, T, ...]] tensor, the
    samples one after the other: a [[B * n, ...]] tensor. *)
Definition frame_entries {A} (x : tensor A) (b t : nat) : list A :=
  match shape x with
  | _ :: T_ :: rest =>
      firstn (T.numel rest) (skipn ((b * T_ + t) * T.numel rest) (data x))
  | _ => []
  end.

Definition frames {A} (x : tensor A) (t0 n : nat) : tensor A :=
  match shape x with
  | B :: _ :: rest =>
      Tensor (B * n :: rest)
        (flat_map (fun b => flat_map (frame_entries x b) (seq t0 n)) (seq 0 B))
  | _ => x
  end.

(** *** What the sub-modules are relied on for

    The encoders, decoders, convolutions, linear maps and quantizers are
    built by code outside these sources.  The theorems on [tokenize] and
    [detokenize] need the shapes they return on the shapes the model hands
    them, for frames of size [C x H x W]. *)
Definition feature (N : nat) (f : tensor Q) : Prop :=
  exists cf hf wf, 0 < cf * hf * wf /\ shape f = [N; cf; hf; wf].

Definition conditioned (t M : nat) (f : tensor Q) : Prop :=
  exists cf hf wf, 0 < cf * hf * wf /\
    shape f = if 1 <? t then [M; t; cf; hf; wf] else [M; cf; hf; wf].

Record encoding_contract (self : model) (C H W gh gw gh2 gw2 : nat) : Prop := {
  patch_pos : 0 < patch_size self;
  patch_fits : patch_size self <= gh2 /\ patch_size self <= gw2;
  encoder_ok : forall x N, shape x = [N; C; H; W] ->
    exists h fs, encoder self x = Ok (h, fs) /\
      shape h = [N; latent_channels self; gh; gw] /\ Forall (feature N) fs;
  quant_conv_ok : forall x N, shape x = [N; latent_channels self; gh; gw] ->
    exists y, quant_conv self x = Ok y /\
      shape y = [N; length (vq_fsq_levels self); gh; gw];
  quantize_ok : forall x N, shape x = [N; length (vq_fsq_levels self); gh; gw] ->
    exists q info, call (quantize self) x = Ok (q, info) /\
      shape q = shape x /\ shape info = [N; gh; gw];
  cond_encoder_ok : forall x fs M, shape x = [M; C; H; W] ->
    Forall (conditioned (context_length self) M) fs ->
    exists d, cond_encoder self x fs = Ok d /\
      shape d = [M; dyna_latent_channels self; gh2; gw2];
  quant_linear_ok : forall x M L,
    shape x = [M; L; dyna_latent_channels self * patch_size self * patch_size self] ->
    exists y, quant_linear self x = Ok y /\
      shape y = [M; L; length (dyn_fsq_levels self)];
  dynamics_quantize_ok : forall x M L, shape x = [M; length (dyn_fsq_levels self); L; 1] ->
    exists q info, call (dynamics_quantize self) x = Ok (q, info) /\
      shape q = shape x /\ shape info = [M; L; 1]
}.

Record decoding_contract (self : model) (Co Ho Wo : nat) : Prop := {
  codes_ok : forall x B N, shape x = [B; N] ->
    exists y, indices_to_codes (quantize self) x = Ok y /\
      shape y = [B; N; length (vq_fsq_levels self)];
  dyn_codes_ok : forall x B N, shape x = [B; N] ->
    exists y, indices_to_codes (dynamics_quantize self) x = Ok y /\
      shape y = [B; N; length (dyn_fsq_levels self)];
  post_quant_conv_ok : forall x N,
    shape x = [N; length (vq_fsq_levels self); fst ctx_res; snd ctx_res] ->
    exists y, post_quant_conv self x = Ok y /\
      shape y = [N; latent_channels self; fst ctx_res; snd ctx_res];
  post_quant_linear_ok : forall x M L, shape x = [M; L; length (dyn_fsq_levels self)] ->
    exists y, post_quant_linear self x = Ok y /\
      shape y = [M; L; dyna_latent_channels self * patch_size self * patch_size self];
  decoder_ok : forall x N, shape x = [N; latent_channels self; fst ctx_res; snd ctx_res] ->
    exists y fs, decoder self x = Ok (y, fs) /\ T.wf y /\
      shape y = [N; Co; Ho; Wo] /\ Forall (feature N) fs;
  cond_decoder_ok : forall x fs M,
    shape x = [M; dyna_latent_channels self; fst ctx_res; snd ctx_res] ->
    Forall (conditioned (context_length self) M) fs ->
    exists y, cond_decoder self x fs = Ok y /\ T.wf y /\ shape y = [M; Co; Ho; Wo]
}.

(** An [FSQ] built on levels [l] returns positions of the grid those
    levels span. *)
Definition fsq_grid (env : imports) : Prop :=
  forall l x quant info, call (new_FSQ env l) x = Ok (quant, info) ->
    Forall (fun i => (0 <= i < Z.of_nat (prod l))%Z) (data info).

End CompressiveVQModelFSQ.

(** ** Python strings and paths, as far as the resume block uses them *)

Module Py.

Local Open Scope string_scope.

Definition startswith (s p : string) : bool := String.prefix p s.

(** [s.split(sep)] for a non-empty [sep]: cut at every occurrence found
    from the left, occurrences not overlapping.  [skip] counts the rest of
    a separator whose first character has just been consumed, [cur] is the
    piece read so far. *)
Fixpoint split_go (sep s : string) (skip : nat) (cur : string) : list string :=
  match s with
  | EmptyString => [cur]
  | String c s' =>
      match skip with
      | S k => split_go sep s' k cur
      | O =>
          if String.prefix sep s
          then cur :: split_go sep s' (String.length sep - 1) ""
          else split_go sep s' 0 (cur ++ String c "")
      end
  end.

Definition split (s sep : string) : list string := split_go sep s 0 "".

(** [l[i]] for a non-negative [i]. *)
Definition index {A} (l : list A) (i : nat) : result A :=
  match nth_error l i with
  | Some a => Ok a
  | None => Raise IndexError
  end.

(** [int(s)] in base ten, on ASCII text: surrounding white space is
    dropped, one sign is allowed, single underscores may separate digits. *)
Definition is_space (c : ascii) : bool :=
  let n := nat_of_ascii c in
  (((9 <=? n) && (n <=? 13)) || ((28 <=? n) && (n <=? 32)))%nat.

Definition digit_of (c : ascii) : option Z :=
  let n := nat_of_ascii c in
  if ((48 <=? n) && (n <=? 57))%nat then Some (Z.of_nat (n - 48)) else None.

Fixpoint lstrip (s : string) : string :=
  match s with
  | EmptyString => ""
  | String c s' => if is_space c then lstrip s' else s
  end.

Fixpoint rstrip (s : string) : string :=
  match s with
  | EmptyString => ""
  | String c s' =>
      let r := rstrip s' in
      if is_space c && (r =? "") then "" else String c r
  end.

Fixpoint digits (s : string) (acc : Z) (after_digit : bool) : option Z :=
  match s with
  | EmptyString => if after_digit then Some acc else None
  | String c s' =>
      match digit_of c with
      | Some d => digits s' (10 * acc + d)%Z true
      | None =>
          if (c =? "_")%char && after_digit then digits s' acc false else None
      end
  end.

Definition int (s : string) : result Z :=
  let s := rstrip (lstrip s) in
  let '(negative, body) :=
    match s with
    | String "-" r => (true, r)
    | String "+" r => (false, r)
    | _ => (false, s)
    end in
  match digits body 0 false with
  | Some z => Ok (if negative then (- z)%Z else z)
  | None => Raise ValueError
  end.

(** [str(n)] of an integer, as an f-string formats it. *)
Definition str (z : Z) : string := DecimalString.NilZero.string_of_int (Z.to_int z).

(** [sorted(l, key=key)]: every key is computed first, in list order, and a
    key that raises ends the call; the sort is stable. *)
Fixpoint insert_by_key (x : Z * string) (l : list (Z * string)) : list (Z * string) :=
  match l with
  | [] => [x]
  | y :: rest => if (fst x <=? fst y)%Z then x :: l else y :: insert_by_key x rest
  end.

Definition sorted (l : list string) (key : string -> result Z) : result (list string) :=
  (keyed <- mapM (fun x => k <- key x ;; Ok (k, x)) l ;;
   Ok (map snd (fold_right insert_by_key [] keyed)))%py.

(** [os.path.join(a, b)] and [os.path.basename(p)] of [posixpath]; [None]
    as a component is a [TypeError]. *)
Definition endswith_slash (a : string) : bool :=
  match String.get (String.length a - 1) a with
  | Some c => (c =? "/")%char
  | None => false
  end.

Definition os_path_join (a : string) (b : option string) : result string :=
  match b with
  | None => Raise TypeError
  | Some b =>
      Ok (if String.prefix "/" b then b
          else if (a =? "") || endswith_slash a then a ++ b
          else a ++ "/" ++ b)
  end.

Definition os_path_basename (p : string) : string := last (split p "/") "".

End Py.

(** ** Checkpoints (train_tokenizer.py, lines 91-117 and 643-665) *)

Module Checkpoint.

Local Open Scope string_scope.

Record args : Type := {
  output_dir : string;
  resume_from_checkpoint : option string;
  start_global_step : Z;
  checkpointing_steps : Z;
  latest_checkpoint_only : bool
}.

(** The directory that [save_checkpoint] writes, line 92. *)
Definition checkpoint_name (model_name : string) (global_step : Z) : string :=
  "checkpoint-" ++ model_name ++ Py.str global_step.

(** [save_checkpoint] as it changes the entries of the output directory:
    the new directory appears; with [latest_checkpoint_only] the directory
    named on line 113 is removed when it exists. *)
Definition save_checkpoint (a : args) (listing : list string) (global_step : Z)
           (model_name : string) : list string :=
  let save_path := checkpoint_name model_name global_step in
  let listing :=
    if existsb (String.eqb save_path) listing then listing else (listing ++ [save_path])%list in
  if latest_checkpoint_only a
  then
    let latest_checkpoint_path :=
      "checkpoint-" ++ Py.str (global_step - checkpointing_steps a) in
    filter (fun d => negb (d =? latest_checkpoint_path)) listing
  else listing.

(** The two calls of the script, lines 953 and 984. *)
Definition save_tokenizer_checkpoint (a : args) (listing : list string) (global_step : Z)
  : list string :=
  save_checkpoint a listing global_step "tokenizer".

(** The key of the sort on line 653. *)
Definition sort_key (x : string) : result Z :=
  (seg <- Py.index (Py.split x "-") 1 ;; Py.int seg)%py.

(** What the resume block leaves: the path whose state was loaded, if any,
    and [global_step].  [listing] is [os.listdir(args.output_dir)]. *)
Record resumed : Type := { loaded : option string; global_step : Z }.

Definition resume (a : args) (listing : list string) : result resumed :=
  let global_step := start_global_step a in
  match resume_from_checkpoint a with
  | None => Ok {| loaded := None; global_step := global_step |}
  | Some "" => Ok {| loaded := None; global_step := global_step |}
  | Some r =>
      (path <- (if negb (r =? "latest") then Ok (Some r)
                else
                  let dirs := filter (fun d => Py.startswith d "checkpoint") listing in
                  dirs <- Py.sorted dirs sort_key ;;
                  let path := if (0 <? length dirs)%nat then Some (last dirs "") else None in
                  p <- Py.os_path_join (output_dir a) path ;;
                  Ok (Some p)) ;;
       match path with
       | None => Ok {| loaded := None; global_step := global_step |}
       | Some p =>
           (* accelerator.load_state(path) *)
           seg <- Py.index (Py.split (Py.os_path_basename p) "-tokenizer") 1 ;;
           global_step <- Py.int seg ;;
           Ok {| loaded := Some p; global_step := global_step |}
       end)%py
  end.

End Checkpoint.

(** ** The generator step of the training loop (train_tokenizer.py, lines 687-814) *)

Module Train.

Record args : Type := {
  vae_loss : string;
  recon_weight : Q;
  perc_weight : Q;
  disc_weight : Q;
  disc_start : Z;
  balanced_loss : bool;
  weighted_gan : bool;
  use_3d_disc : bool;
  segment_length : nat;
  context_length : nat;
  train_batch_size : nat;
  gradient_accumulation_steps : nat
}.

(** What the step calls and the repository does not define: the
    element-wise losses and the resampling of the tensor library, the LPIPS
    network, the discriminator. *)
Record collaborators : Type := {
  F_mse_loss : tensor Q -> tensor Q -> tensor Q;      (* reduction='none' *)
  F_l1_loss : tensor Q -> tensor Q -> tensor Q;       (* reduction='none' *)
  F_interpolate : tensor Q -> list nat -> tensor Q;
  lpips : tensor Q -> tensor Q -> option (tensor Q) -> tensor Q;
  discriminator : tensor Q -> tensor Q
}.

Definition sumQ (l : list Q) : Q := fold_right Qplus 0%Q l.

(** [x.mean()]. *)
Definition mean (x : tensor Q) : Q :=
  (sumQ (data x) / inject_Z (Z.of_nat (length (data x))))%Q.

(** [x * y] on tensors of one shape, and [x * 2 - 1.0]. *)
Definition mul (x y : tensor Q) : tensor Q :=
  Tensor (shape x) (map (fun p => (fst p * snd p)%Q) (combine (data x) (data y))).

Definition rescale (x : tensor Q) : tensor Q :=
  T.mapT (fun v => (v * 2 - 1)%Q) x.

(** [get_recon_loss], lines 687-697. *)
Definition get_recon_loss (c : collaborators) (a : args) (gt recon : tensor Q)
           (weights : option (tensor Q)) : Q :=
  let loss := if (vae_loss a =? "l2")%string then F_mse_loss c gt recon
              else F_l1_loss c gt recon in
  match weights with
  | Some w =>
      let resized_weights := F_interpolate c w (skipn 2 (shape loss)) in
      mean (mul loss resized_weights)
  | None => mean loss
  end.

(** Line 710: is iteration [i] a generator step? *)
Definition generator_step (a : args) (i : nat) : result bool :=
  (q <- floordiv (Z.of_nat i) (Z.of_nat (gradient_accumulation_steps a)) ;;
   Ok (q mod 2 =? 0)%Z)%py.

(** The layout the discriminator is given, lines 779-785 ([disc_weights]
    is [None] throughout). *)
Definition disc_view (a : args) (fmap : tensor Q) : result (tensor Q) :=
  if use_3d_disc a
  then (x <- T.reshape (Some (train_batch_size a) :: Some (segment_length a)
                          :: map Some (skipn 1 (shape fmap))) fmap ;;
        T.permute [0; 2; 1; 3; 4] x)%py
  else Ok fmap.

(** [perceptual_loss], lines 764-768. *)
Definition perceptual_loss (c : collaborators) (pixel_values fmap : tensor Q)
           (weights : option (tensor Q)) : Q :=
  mean (lpips c (rescale pixel_values) (rescale fmap) weights).

(** The adversarial loss of the generator, lines 787-792. *)
Definition gen_loss (c : collaborators) (a : args) (disc_fmap : tensor Q)
           (disc_weights : option (tensor Q)) : Q :=
  match disc_weights with
  | Some w =>
      if weighted_gan a
      then
        let logits := discriminator c disc_fmap in
        let resized_weights := F_interpolate c w (skipn 2 (shape logits)) in
        (- mean (mul resized_weights logits))%Q
      else (- mean (discriminator c disc_fmap))%Q
  | None => (- mean (discriminator c disc_fmap))%Q
  end.

Definition balance (a : args) (x : Q) : Q :=
  (x * inject_Z (Z.of_nat (segment_length a) - Z.of_nat (context_length a))
     / inject_Z (Z.of_nat (segment_length a)))%Q.

(** The value given to [accelerator.backward] in a generator step, lines
    743-814.  [fmap] and [commit_loss] are what the model returned on
    [pixel_values]; [weights] is assigned [None] on line 741. *)
Definition generator_loss (c : collaborators) (a : args) (global_step : Z)
           (pixel_values fmap : tensor Q) (commit_loss : Q) : result Q :=
  let weights : option (tensor Q) := None in
  let recon_loss := get_recon_loss c a pixel_values fmap weights in
  let loss := if balanced_loss a then balance a (recon_weight a * recon_loss)%Q
              else (recon_weight a * recon_loss)%Q in
  let perceptual := perceptual_loss c pixel_values fmap weights in
  let loss := if balanced_loss a then (loss + balance a (perc_weight a * perceptual))%Q
              else (loss + perc_weight a * perceptual)%Q in
  (loss <- (if (disc_start a <=? global_step)%Z
            then
              disc_fmap <- disc_view a fmap ;;
              let disc_weights := weights in
              Ok (loss + disc_weight a * gen_loss c a disc_fmap disc_weights)%Q
            else Ok loss) ;;
   Ok (loss + commit_loss)%Q)%py.

End Train.

(** ** [gradient_penalty] (train_tokenizer.py, lines 77-88), over the reals *)

Module GradientPenalty.

Local Open Scope R_scope.

Definition sumR (l : list R) : R := fold_right Rplus 0 l.

(** [x.mean()] of a one-dimensional tensor. *)
Definition mean (x : tensor R) : R := sumR (data x) / INR (length (data x)).

(** [x.norm(2, dim=1)] of a two-dimensional tensor: one norm per row. *)
Definition norm2_dim1 (x : tensor R) : result (tensor R) :=
  match shape x with
  | [b; m] =>
      Ok (Tensor [b] (map (fun row => sqrt (sumR (map (fun v => v * v) row)))
                        (T.chunks m b (data x))))
  | _ => Raise IndexError
  end.

(** [torch.autograd.grad(outputs=output, inputs=images,
    grad_outputs=ones)[0]] is the substrate's: the gradient of the sum of
    [output] with respect to [images]. *)
Definition autograd : Type := tensor R -> tensor R -> tensor R.

Definition default_weight : R := 10.

Definition gradient_penalty (grad : autograd) (images output : tensor R) (weight : option R)
  : result R :=
  let weight := match weight with Some w => w | None => default_weight end in
  let gradients := grad output images in
  (bsz <- T.size gradients 0 ;;
   gradients <- T.reshape [Some bsz; None] gradients ;;
   norms <- norm2_dim1 gradients ;;
   Ok (weight * mean (T.mapT (fun n => (n - 1) ^ 2) norms)))%py.

(** The claim's reading, entry by entry: [g_i] is the block of the
    flattened gradient that belongs to batch element [i]. *)
Definition entry (g : tensor R) (k : nat) : R := nth k (data g) 0.

Definition sample_norm (g : tensor R) (m i : nat) : R :=
  sqrt (sumR (map (fun j => entry g (i * m + j) * entry g (i * m + j)) (seq 0 m))).

Definition penalty_spec (g : tensor R) (B : nat) (weight : R) : R :=
  let m := T.numel (tl (shape g)) in
  weight * (sumR (map (fun i => (sample_norm g m i - 1) ^ 2) (seq 0 B)) / INR B).

End GradientPenalty.

(** ** The discriminator step of the training loop (train_tokenizer.py,
    lines 829-860), over the reals *)

Module DiscriminatorStep.

Local Open Scope R_scope.

Record collaborators : Type := {
  discriminator : tensor R -> tensor R;
  grad : GradientPenalty.autograd
}.

(** [F.relu(x)], [1 + x], [1 - x] and [x + y] on tensors of one shape. *)
Definition relu (x : tensor R) : tensor R := T.mapT (fun v => Rmax 0 v) x.

Definition one_plus (x : tensor R) : tensor R := T.mapT (fun v => 1 + v) x.

Definition one_minus (x : tensor R) : tensor R := T.mapT (fun v => 1 - v) x.

Definition add (x y : tensor R) : tensor R :=
  Tensor (shape x) (map (fun p => fst p + snd p) (combine (data x) (data y))).

(** The layout the discriminator is given, lines 840-846. *)
Definition disc_view (a : Train.args) (x : tensor R) : result (tensor R) :=
  if Train.use_3d_disc a
  then (y <- T.reshape (Some (Train.train_batch_size a) :: Some (Train.segment_length a)
                          :: map Some (skipn 1%nat (shape x))) x ;;
        T.permute [0; 2; 1; 3; 4]%nat y)%py
  else Ok x.

(** The value given to [accelerator.backward] in a discriminator step, or
    [None] when the step is skipped (line 880).  [weights] is [None], so the
    weighted branch of line 850 is not taken. *)
Definition discriminator_loss (c : collaborators) (a : Train.args) (global_step : Z)
           (pixel_values fmap : tensor R) : result (option R) :=
  if (Train.disc_start a <=? global_step)%Z
  then
    (disc_pixel_values <- disc_view a pixel_values ;;
     disc_fmap <- disc_view a fmap ;;
     let real := discriminator c disc_pixel_values in
     let fake := discriminator c disc_fmap in
     let loss := GradientPenalty.mean (add (relu (one_plus fake)) (relu (one_minus real))) in
     gp <- GradientPenalty.gradient_penalty (grad c) pixel_values real None ;;
     let loss := loss + gp in
     let loss := if (global_step <? Train.disc_start a)%Z then loss * 0 else loss in
     Ok (Some loss))%py
  else Ok None.

End DiscriminatorStep.

(** ** A small instance

    One latent channel, patches of 4 x 4, quantizers that round onto an
    integer grid of one dimension, sub-modules that keep the resolution.  It
    is what the statements below are evaluated on. *)

Module Small.

Import CompressiveVQModelFSQ.

Definition clampZ (L : nat) (z : Z) : Z := Z.max 0 (Z.min (Z.of_nat L - 1) z).

(** Entries cut or padded with zeros to the number a shape asks for. *)
Definition fit (s : list nat) (l : list Q) : list Q :=
  firstn (T.numel s) (l ++ repeat 0%Q (T.numel s)).

Definition grid_FSQ (l : list nat) : FSQ :=
  {| levels := l;
     call := fun x =>
       match l, shape x with
       | [L], [N; 1; h; w] =>
           if L =? 0 then Raise RuntimeError
           else Ok (T.mapT (fun v => inject_Z (clampZ L (Qfloor v))) x,
                    Tensor [N; h; w] (map (fun v => clampZ L (Qfloor v)) (data x)))
       | _, _ => Raise RuntimeError
       end;
     indices_to_codes := fun x =>
       match shape x with
       | [B; N] => Ok (Tensor [B; N; length l] (map inject_Z (data x)))
       | _ => Raise RuntimeError
       end |}.

(** A 1 x 1 convolution that copies when the channels agree and gives
    zeros otherwise. *)
Definition conv (cin cout : nat) : net := fun x =>
  match shape x with
  | [N; c; h; w] =>
      if c =? cin
      then Ok (Tensor [N; cout; h; w]
                 (fit [N; cout; h; w] (if cin =? cout then data x else [])))
      else Raise RuntimeError
  | _ => Raise RuntimeError
  end.

(** A linear map whose outputs all are the sum of the inputs. *)
Definition linear (fin fout : nat) : net := fun x =>
  match shape x with
  | [M; L; f] =>
      if f =? fin
      then Ok (Tensor [M; L; fout]
                 (flat_map (fun row => repeat (Train.sumQ row) fout)
                           (T.chunks fin (M * L) (data x))))
      else Raise RuntimeError
  | _ => Raise RuntimeError
  end.

Definition with_features (f : net) : feature_net := fun x =>
  (y <- f x ;;
   n <- T.size x 0 ;;
   Ok (y, [T.full [n; 1; 1; 1] 1%Q]))%py.

Definition ignoring_features (f : net) : cond_net := fun x _ => f x.

Definition env : imports :=
  {| get_fsq_levels := fun n => [n];
     new_FSQ := grid_FSQ;
     new_Conv2d := conv;
     new_Linear := linear;
     new_Encoder := fun cfg => with_features (conv 1 (cfg_latent_channels cfg));
     new_ConditionalEncoder := fun cfg => ignoring_features (conv 1 (cfg_latent_channels cfg));
     new_Decoder := fun cfg => with_features (conv (cfg_latent_channels cfg) 1);
     new_ConditionalDecoder := fun cfg => ignoring_features (conv (cfg_latent_channels cfg) 1) |}.

Definition cfg (context_length : nat) : config :=
  {| cfg_latent_channels := 1;
     cfg_vq_fsq_levels := inl 3;
     cfg_dyn_fsq_levels := inl 3;
     cfg_context_length := context_length;
     cfg_patch_size := 4 |}.

(** The model [init] builds; its fields are those of the [Ok] result. *)
Definition build (context_length : nat) : model :=
  match init env (cfg context_length) with
  | Ok m => m
  | Raise _ =>
      {| latent_channels := 0; dyna_latent_channels := 0; context_length := 0;
         num_vq_embeddings := 0; num_dyn_embeddings := 0; vq_fsq_levels := [];
         dyn_fsq_levels := []; patch_size := 0;
         cond_encoder := fun _ _ => Raise RuntimeError;
         encoder := fun _ => Raise RuntimeError;
         quant_conv := fun _ => Raise RuntimeError;
         quantize := grid_FSQ [];
         post_quant_conv := fun _ => Raise RuntimeError;
         quant_linear := fun _ => Raise RuntimeError;
         dynamics_quantize := grid_FSQ [];
         post_quant_linear := fun _ => Raise RuntimeError;
         cond_decoder := fun _ _ => Raise RuntimeError;
         decoder := fun _ => Raise RuntimeError |}
  end.

(** Tensors whose entries count up from [start] in steps of a half. *)
Definition ramp (s : list nat) (start : Q) : tensor Q :=
  Tensor s (map (fun k => (start + inject_Z (Z.of_nat k) / 2)%Q) (seq 0 (T.numel s))).

Definition constZ (s : list nat) (z : Z) : tensor Z := T.full s z.

(** Collaborators of the training step: the element-wise losses on
    tensors of one shape, a perceptual distance that is the mean squared
    difference per tensor, a discriminator with one logit per entry. *)
Definition zip_with (f : Q -> Q -> Q) (x y : tensor Q) : tensor Q :=
  Tensor (shape x) (map (fun p => f (fst p) (snd p)) (combine (data x) (data y))).

Definition collab : Train.collaborators :=
  {| Train.F_mse_loss := zip_with (fun u v => ((u - v) * (u - v))%Q);
     Train.F_l1_loss := zip_with (fun u v => Qabs (u - v));
     Train.F_interpolate := fun w _ => w;
     Train.lpips := fun x y _ =>
       Tensor [1; 1; 1; 1] [Train.mean (zip_with (fun u v => ((u - v) * (u - v))%Q) x y)];
     Train.discriminator := fun x => T.mapT (fun v => (v - (1 # 2))%Q) x |}.

Definition train_args (start : Z) : Train.args :=
  {| Train.vae_loss := "l1";
     Train.recon_weight := 1%Q;
     Train.perc_weight := 1%Q;
     Train.disc_weight := (8 # 10)%Q;
     Train.disc_start := start;
     Train.balanced_loss := false;
     Train.weighted_gan := false;
     Train.use_3d_disc := false;
     Train.segment_length := 2;
     Train.context_length := 1;
     Train.train_batch_size := 1;
     Train.gradient_accumulation_steps := 1 |}.

(** The same run with [--balanced_loss] and [--use_3d_disc]. *)
Definition balanced_args (start : Z) : Train.args :=
  {| Train.vae_loss := "l1";
     Train.recon_weight := 1%Q;
     Train.perc_weight := 1%Q;
     Train.disc_weight := (8 # 10)%Q;
     Train.disc_start := start;
     Train.balanced_loss := true;
     Train.weighted_gan := false;
     Train.use_3d_disc := true;
     Train.segment_length := 2;
     Train.context_length := 1;
     Train.train_batch_size := 1;
     Train.gradient_accumulation_steps := 2 |}.

End Small.

(** * Properties *)

(** ** Results *)

Lemma bind_Ok_inv {A B : Type} (r : result A) (k : A -> result B) (b : B) :
  bind r k = Ok b -> exists a, r = Ok a /\ k a = Ok b.
Proof.
  destruct r as [a|e]; simpl; intros H; [exists a; auto | discriminate].
Qed.

Lemma mapM_raises {A B : Type} (f : A -> result B) (l : list A) (a : A) :
  In a l -> returns (f a) = false -> returns (mapM f l) = false.
Proof.
  induction l as [|x l IH]; simpl; [tauto|].
  intros [->|Hin] Ha.
  - destruct (f a); [discriminate | reflexivity].
  - destruct (f x); simpl; [|reflexivity].
    specialize (IH Hin Ha). destruct (mapM f l); [discriminate | reflexivity].
Qed.

Lemma mapM_Forall2 {A B : Type} (f : A -> result B) (P : A -> Prop) (R : B -> Prop) (l : list A) :
  (forall a, P a -> exists b, f a = Ok b /\ R b) ->
  Forall P l -> exists bs, mapM f l = Ok bs /\ Forall R bs.
Proof.
  intros Hf. induction 1 as [|a l Ha Hl IH]; simpl.
  - exists []. split; [reflexivity | constructor].
  - destruct (Hf a Ha) as [b [Hb Rb]]. destruct IH as [bs [Hbs Rbs]].
    rewrite Hb, Hbs. simpl. exists (b :: bs). split; [reflexivity | constructor; assumption].
Qed.

(** ** [AverageMeter] *)

Module AverageMeterFacts.

Import AverageMeter.

(** One call: [val], [sum] and [count] are assigned whether or not the
    division raises. *)
Lemma update_fields (m : t) (v : Q) (n : Z) :
  val (fst (update m v n)) = v /\
  sum (fst (update m v n)) = (sum m + v * inject_Z n)%Q /\
  count (fst (update m v n)) = (count m + n)%Z.
Proof.
  unfold update; simpl. destruct (count m + n =? 0)%Z; simpl; auto.
Qed.

Lemma update_avg (m : t) (v : Q) (n : Z) :
  (count m + n)%Z <> 0%Z ->
  avg (fst (update m v n))
  = (sum (fst (update m v n)) / inject_Z (count (fst (update m v n))))%Q.
Proof.
  intros H. unfold update; simpl.
  destruct (Z.eqb_spec (count m + n) 0) as [E|_]; [contradiction | reflexivity].
Qed.

Lemma run_snoc (m : t) (calls : list (Q * Z)) (c : Q * Z) :
  run m (calls ++ [c]) = fst (update (run m calls) (fst c) (snd c)).
Proof. unfold run. rewrite fold_left_app. reflexivity. Qed.

Lemma total_count_app (l1 l2 : list (Q * Z)) :
  total_count (l1 ++ l2) = (total_count l1 + total_count l2)%Z.
Proof. induction l1 as [|c l1 IH]; simpl; [reflexivity | rewrite IH; lia]. Qed.

Lemma weighted_sum_app (l1 l2 : list (Q * Z)) :
  (weighted_sum (l1 ++ l2) == weighted_sum l1 + weighted_sum l2)%Q.
Proof.
  induction l1 as [|c l1 IH]; simpl; [ring | rewrite IH; ring].
Qed.

Lemma run_count (calls : list (Q * Z)) (m : t) :
  count (run m calls) = (count m + total_count calls)%Z.
Proof.
  induction calls as [|c calls IH] using rev_ind; simpl.
  - unfold run; simpl. lia.
  - rewrite run_snoc, total_count_app.
    destruct (update_fields (run m calls) (fst c) (snd c)) as [_ [_ Hc]].
    rewrite Hc, IH. simpl. lia.
Qed.

Lemma run_sum (calls : list (Q * Z)) (m : t) :
  (sum (run m calls) == sum m + weighted_sum calls)%Q.
Proof.
  induction calls as [|c calls IH] using rev_ind; simpl.
  - unfold run; simpl. ring.
  - rewrite run_snoc, weighted_sum_app.
    destruct (update_fields (run m calls) (fst c) (snd c)) as [_ [Hs _]].
    rewrite Hs, IH. simpl. ring.
Qed.

Lemma nonempty_of_total (calls : list (Q * Z)) :
  (0 < total_count calls)%Z -> exists rest c, calls = rest ++ [c].
Proof.
  destruct calls as [|c calls] using rev_ind; simpl; [lia|].
  intros _. exists calls, c. reflexivity.
Qed.

(** C10.  After [reset()] and a sequence of [update(val, n)] calls whose
    counts add up to a positive total, [count] is the sum of the [n], [sum]
    is the sum of the products [val * n], [avg] is [sum / count] and [val]
    is the value the last call passed.  This is the state once every call
    of the sequence has been made, including sequences in which an earlier
    call met a zero count and raised [ZeroDivisionError]. *)
Theorem average_meter_invariant (m0 : t) (calls : list (Q * Z)) :
  (0 < total_count calls)%Z ->
  let m := run (reset m0) calls in
  count m = total_count calls /\
  (sum m == weighted_sum calls)%Q /\
  (avg m == sum m / inject_Z (count m))%Q /\
  val m = last_val calls 0%Q.
Proof.
  intros Hpos m. subst m.
  assert (Hc : count (run (reset m0) calls) = total_count calls).
  { rewrite run_count. simpl. lia. }
  split; [exact Hc|]. split.
  - rewrite run_sum. simpl. ring.
  - destruct (nonempty_of_total calls Hpos) as [rest [c ->]].
    rewrite run_snoc in *. split.
    + rewrite update_avg; [reflexivity|].
      destruct (update_fields (run (reset m0) rest) (fst c) (snd c)) as [_ [_ Hc']].
      rewrite <- Hc'. rewrite Hc. lia.
    + destruct (update_fields (run (reset m0) rest) (fst c) (snd c)) as [Hv _].
      rewrite Hv. unfold last_val. rewrite map_app. simpl. rewrite last_last. reflexivity.
Qed.

Lemma average_meter_invariant_witness :
  (0 < total_count [((1 # 2)%Q, 0%Z); (3%Q, 2%Z); ((1 # 4)%Q, 1%Z)])%Z /\
  (let m := run (reset init) [((1 # 2)%Q, 0%Z); (3%Q, 2%Z); ((1 # 4)%Q, 1%Z)] in
   count m = total_count [((1 # 2)%Q, 0%Z); (3%Q, 2%Z); ((1 # 4)%Q, 1%Z)] /\
   (sum m == weighted_sum [((1 # 2)%Q, 0%Z); (3%Q, 2%Z); ((1 # 4)%Q, 1%Z)])%Q /\
   (avg m == sum m / inject_Z (count m))%Q /\
   val m = last_val [((1 # 2)%Q, 0%Z); (3%Q, 2%Z); ((1 # 4)%Q, 1%Z)] 0%Q).
Proof.
  split; [reflexivity|].
  apply (average_meter_invariant init [((1 # 2)%Q, 0%Z); (3%Q, 2%Z); ((1 # 4)%Q, 1%Z)]).
  reflexivity.
Defined.

(** Calls with positive counts never raise. *)
Lemma positive_counts_never_raise (calls : list (Q * Z)) (m : t) :
  (0 <= count m)%Z -> Forall (fun c => (0 < snd c)%Z) calls -> raises m calls = false.
Proof.
  revert m. induction calls as [|c calls IH]; intros m Hm Hall; simpl; [reflexivity|].
  inversion Hall as [|? ? Hc Hrest]; subst.
  unfold update; simpl.
  destruct (Z.eqb_spec (count m + snd c) 0) as [E|NE]; [lia|].
  apply IH; simpl; [lia | assumption].
Qed.

(** The first call of the witness above is one that raises. *)
Example zero_count_raises :
  snd (update init (1 # 2)%Q 0%Z) = Some ZeroDivisionError.
Proof. reflexivity. Qed.

End AverageMeterFacts.

(** ** Checkpoints: saving and resuming *)

Module CheckpointFacts.

Import Checkpoint.
Local Open Scope string_scope.

Lemma append_empty_r (s : string) : s ++ "" = s.
Proof. induction s as [|c s IH]; simpl; [reflexivity | rewrite IH; reflexivity]. Qed.

Lemma append_snoc (s t : string) (c : ascii) : (s ++ String c "") ++ t = s ++ String c t.
Proof. induction s as [|x s IH]; simpl; [reflexivity | rewrite IH; reflexivity]. Qed.

(** The first piece of a split begins with what has been read so far. *)
Lemma split_go_head (sep s cur : string) :
  exists tl more, Py.split_go sep s 0 cur = (cur ++ tl) :: more.
Proof.
  revert cur. induction s as [|c s IH]; intros cur.
  - exists "", []. simpl. rewrite append_empty_r. reflexivity.
  - cbn [Py.split_go]. destruct (String.prefix sep (String c s)).
    + exists "", (Py.split_go sep s (String.length sep - 1) "").
      rewrite append_empty_r. reflexivity.
    + destruct (IH (cur ++ String c "")) as [tl [more E]].
      exists (String c tl), more. rewrite E, append_snoc. reflexivity.
Qed.

(** [int] refuses text that begins with a letter. *)
Lemma int_of_t (r : string) : Py.int (String "t" r) = Raise ValueError.
Proof. reflexivity. Qed.

(** The key of the sort is not an integer on a directory that
    [save_checkpoint(..., 'tokenizer')] wrote. *)
Lemma sort_key_of_saved (step : Z) :
  sort_key (checkpoint_name "tokenizer" step) = Raise ValueError.
Proof.
  assert (Hsplit : forall rest, Py.split ("checkpoint-tokenizer" ++ rest) "-"
                                = "checkpoint" :: Py.split_go "-" rest 0 "tokenizer")
    by (intros rest; vm_compute; reflexivity).
  assert (Hint : forall tl more,
             (seg <- Py.index ("checkpoint" :: ("tokenizer" ++ tl) :: more) 1 ;; Py.int seg)%py
             = Raise ValueError)
    by (intros tl more; vm_compute; reflexivity).
  unfold sort_key, checkpoint_name.
  change ("checkpoint-" ++ "tokenizer" ++ Py.str step)
    with ("checkpoint-tokenizer" ++ Py.str step).
  rewrite Hsplit.
  destruct (split_go_head "-" (Py.str step) "tokenizer") as [tl [more E]].
  rewrite E. apply Hint.
Qed.

(** A decimal never begins with a letter, so line 113 names no directory of
    the tokenizer. *)
Lemma str_not_t (z : Z) (r : string) : (String "t" r =? Py.str z) = false.
Proof.
  unfold Py.str. destruct (Z.to_int z) as [u|u]; destruct u; reflexivity.
Qed.

Lemma saved_is_listed (a : args) (listing : list string) (step : Z) :
  In (checkpoint_name "tokenizer" step) (save_tokenizer_checkpoint a listing step).
Proof.
  unfold save_tokenizer_checkpoint, save_checkpoint.
  set (name := checkpoint_name "tokenizer" step).
  assert (Hin : In name (if existsb (String.eqb name) listing
                         then listing else (listing ++ [name])%list)).
  { destruct (existsb (String.eqb name) listing) eqn:E.
    - apply existsb_exists in E. destruct E as [x [Hx Heq]].
      apply String.eqb_eq in Heq. subst x. exact Hx.
    - apply in_or_app. right. left. reflexivity. }
  destruct (latest_checkpoint_only a); [|exact Hin].
  apply filter_In. split; [exact Hin|].
  assert (Hcmp : forall u v, ("checkpoint-tokenizer" ++ u =? "checkpoint-" ++ v)
                             = (String "t" ("okenizer" ++ u) =? v))
    by (intros u v; vm_compute; reflexivity).
  unfold name, checkpoint_name.
  change ("checkpoint-" ++ "tokenizer" ++ Py.str step)
    with ("checkpoint-tokenizer" ++ Py.str step).
  rewrite Hcmp, str_not_t. reflexivity.
Qed.

(** C4 (the code departs from the claim).  With
    [--resume_from_checkpoint latest], once the output directory holds a
    checkpoint that the script itself saved (lines 953 and 984 pass the
    model name ['tokenizer']), the resume block raises: the sort key
    [int(x.split("-")[1])] is applied to ["tokenizer<step>"].  No state is
    loaded and [global_step] is not restored. *)
Theorem resume_latest_raises_on_saved_checkpoint
        (out : string) (start every : Z) (only_latest : bool)
        (listing : list string) (step : Z) :
  let a := {| output_dir := out; resume_from_checkpoint := Some "latest";
              start_global_step := start; checkpointing_steps := every;
              latest_checkpoint_only := only_latest |} in
  returns (resume a (save_tokenizer_checkpoint a listing step)) = false.
Proof.
  intros a.
  assert (Hs : returns (Py.sorted
                 (filter (fun d => Py.startswith d "checkpoint")
                         (save_tokenizer_checkpoint a listing step)) sort_key) = false).
  { unfold Py.sorted.
    assert (Hm : returns (mapM (fun x => (k <- sort_key x ;; Ok (k, x))%py)
                   (filter (fun d => Py.startswith d "checkpoint")
                           (save_tokenizer_checkpoint a listing step))) = false).
    { apply mapM_raises with (a := checkpoint_name "tokenizer" step).
      - apply filter_In. split; [apply saved_is_listed | reflexivity].
      - rewrite sort_key_of_saved. reflexivity. }
    destruct (mapM _ _); [discriminate | reflexivity]. }
  unfold resume. cbn [resume_from_checkpoint a String.eqb Ascii.eqb Bool.eqb negb].
  destruct (Py.sorted _ _); [discriminate | reflexivity].
Qed.

(** The same on a concrete directory: the run wrote its logs and one
    checkpoint at step 5000. *)
Example resume_latest_at_step_5000 :
  let a := {| output_dir := "vqgan-output/run"; resume_from_checkpoint := Some "latest";
              start_global_step := 0; checkpointing_steps := 5000;
              latest_checkpoint_only := false |} in
  save_tokenizer_checkpoint a ["logs"; "cmd.sh"; "src"] 5000
  = ["logs"; "cmd.sh"; "src"; "checkpoint-tokenizer5000"] /\
  resume a ["logs"; "cmd.sh"; "src"; "checkpoint-tokenizer5000"] = Raise ValueError.
Proof. split; reflexivity. Qed.

(** Neither does the default model name of [save_checkpoint] help: then
    the sort succeeds and line 664, which splits at ["-tokenizer"], raises. *)
Example resume_latest_default_name :
  let a := {| output_dir := "vqgan-output/run"; resume_from_checkpoint := Some "latest";
              start_global_step := 0; checkpointing_steps := 5000;
              latest_checkpoint_only := false |} in
  resume a (save_checkpoint a ["logs"] 5000 "") = Raise IndexError.
Proof. reflexivity. Qed.

(** What the two parsers of the resume block do agree on. *)
Example resume_latest_on_a_name_both_parse :
  let a := {| output_dir := "out"; resume_from_checkpoint := Some "latest";
              start_global_step := 0; checkpointing_steps := 5000;
              latest_checkpoint_only := false |} in
  resume a ["checkpoint-10-tokenizer10"; "checkpoint-9-tokenizer9"]
  = Ok {| loaded := Some "out/checkpoint-10-tokenizer10"; global_step := 10 |}.
Proof. reflexivity. Qed.

End CheckpointFacts.

(** ** The loss of a generator step *)

Module TrainFacts.

Import Train.

(** [x * 2 - 1.0] takes entries of [[0, 1]] to [[-1, 1]]. *)
Lemma rescale_range (x : tensor Q) :
  Forall (fun v => (0 <= v <= 1)%Q) (data x) ->
  Forall (fun v => (-1 <= v <= 1)%Q) (data (rescale x)).
Proof.
  unfold rescale, T.mapT; simpl. intros H.
  apply Forall_map. eapply Forall_impl; [|exact H].
  intros v [H0 H1]; simpl. split.
  - setoid_replace (-1)%Q with (0 * 2 - 1)%Q by ring.
    apply Qplus_le_compat; [|apply Qle_refl].
    apply Qmult_le_compat_r; [exact H0 | discriminate].
  - setoid_replace 1%Q with (1 * 2 - 1)%Q at 2 by ring.
    apply Qplus_le_compat; [|apply Qle_refl].
    apply Qmult_le_compat_r; [exact H1 | discriminate].
Qed.

Lemma disc_view_2d (a : args) (fmap : tensor Q) :
  use_3d_disc a = false -> disc_view a fmap = Ok fmap.
Proof. unfold disc_view. intros ->. reflexivity. Qed.

(** [x * 2 - 1.0], entry by entry. *)
Lemma rescale_entries (x : tensor Q) :
  shape (rescale x) = shape x /\
  Forall2 (fun v r => (r == 2 * v - 1)%Q) (data x) (data (rescale x)).
Proof.
  split; [reflexivity|].
  unfold rescale, T.mapT. cbn [data].
  induction (data x) as [|v l IH]; cbn [map]; constructor; [ring | exact IH].
Qed.

(** [x.mean()] is the sum of the entries over their number. *)
Lemma mean_is_arithmetic (x : tensor Q) :
  data x <> [] ->
  (mean x * inject_Z (Z.of_nat (length (data x))) == fold_right Qplus 0 (data x))%Q.
Proof.
  intros Hne. unfold mean, sumQ. field.
  destruct (data x) as [|v l]; [contradiction|].
  cbn [length]. unfold Qeq, inject_Z. cbn [Qnum Qden]. lia.
Qed.

(** C6.  With [balanced_loss] off (and [weights] being [None], as line 741
    makes it), the value a generator step backpropagates is
    [recon_weight * recon_loss + perc_weight * perceptual_loss + commit_loss],
    where [perceptual_loss] is the mean of LPIPS on the inputs and the
    reconstructions rescaled by [x * 2 - 1]; from [global_step >= disc_start]
    on, [disc_weight * (- mean(discriminator(fmap)))] is added, the
    discriminator seeing [fmap] itself unless the 3D discriminator is
    chosen, which sees the same reconstruction laid out as a video.

    The rescaling keeps the shape and takes every entry [v] to [2 * v - 1],
    so entries of [[0, 1]] to [[-1, 1]], 0 to -1 and 1 to 1; the means are
    arithmetic means; [recon_loss] is the mean of the element-wise squared
    or absolute error, as [vae_loss] chooses. *)
Theorem generator_loss_composition
        (c : collaborators) (a : args) (global_step : Z)
        (pixel_values fmap : tensor Q) (commit_loss : Q) :
  balanced_loss a = false ->
  let recon_loss := get_recon_loss c a pixel_values fmap None in
  let perceptual := mean (lpips c (rescale pixel_values) (rescale fmap) None) in
  ((global_step < disc_start a)%Z ->
   exists loss, generator_loss c a global_step pixel_values fmap commit_loss = Ok loss /\
     (loss == recon_weight a * recon_loss + perc_weight a * perceptual + commit_loss)%Q) /\
  ((disc_start a <= global_step)%Z ->
   forall disc_fmap, disc_view a fmap = Ok disc_fmap ->
   exists loss, generator_loss c a global_step pixel_values fmap commit_loss = Ok loss /\
     (loss == recon_weight a * recon_loss + perc_weight a * perceptual + commit_loss
              + disc_weight a * (- mean (discriminator c disc_fmap)))%Q) /\
  (use_3d_disc a = false -> disc_view a fmap = Ok fmap) /\
  (Forall (fun v => (0 <= v <= 1)%Q) (data pixel_values) ->
   Forall (fun v => (-1 <= v <= 1)%Q) (data (rescale pixel_values))) /\
  (forall x : tensor Q,
     shape (rescale x) = shape x /\
     Forall2 (fun v r => (r == 2 * v - 1)%Q) (data x) (data (rescale x)) /\
     (Forall (fun v => (0 <= v <= 1)%Q) (data x) ->
      Forall (fun v => (-1 <= v <= 1)%Q) (data (rescale x)))) /\
  (forall x : tensor Q, data x <> [] ->
     (mean x * inject_Z (Z.of_nat (length (data x))) == fold_right Qplus 0 (data x))%Q) /\
  recon_loss = mean (if (vae_loss a =? "l2")%string then F_mse_loss c pixel_values fmap
                     else F_l1_loss c pixel_values fmap).
Proof.
  intros Hb recon_loss perceptual.
  split; [|split; [|split; [|split; [|split; [|split]]]]].
  - intros Hlt. unfold generator_loss. rewrite Hb.
    destruct (Z.leb_spec (disc_start a) global_step) as [Hle|_]; [lia|].
    cbn [bind]. eexists. split; [reflexivity|].
    unfold perceptual_loss. fold recon_loss. fold perceptual. ring.
  - intros Hle disc_fmap Hview. unfold generator_loss. rewrite Hb.
    destruct (Z.leb_spec (disc_start a) global_step) as [_|Hlt]; [|lia].
    rewrite Hview. cbn [bind]. eexists. split; [reflexivity|].
    unfold perceptual_loss, gen_loss. fold recon_loss. fold perceptual. ring.
  - apply disc_view_2d.
  - apply rescale_range.
  - intros x. destruct (rescale_entries x) as [Hs He].
    split; [exact Hs|]. split; [exact He | apply rescale_range].
  - apply mean_is_arithmetic.
  - reflexivity.
Qed.

Lemma generator_loss_composition_witness :
  balanced_loss (Small.train_args 1) = false /\
  (exists loss,
    generator_loss Small.collab (Small.train_args 1) 3
      (Small.ramp [2; 1; 1; 2] 0) (Small.ramp [2; 1; 1; 2] (1 # 4)) (0 # 1) = Ok loss /\
    (loss == 1 * get_recon_loss Small.collab (Small.train_args 1)
                   (Small.ramp [2; 1; 1; 2]%nat 0) (Small.ramp [2; 1; 1; 2]%nat (1 # 4)) None
             + 1 * mean (lpips Small.collab (rescale (Small.ramp [2; 1; 1; 2]%nat 0))
                               (rescale (Small.ramp [2; 1; 1; 2]%nat (1 # 4))) None)
             + (0 # 1)
             + (8 # 10) * (- mean (discriminator Small.collab
                                    (Small.ramp [2; 1; 1; 2]%nat (1 # 4)))))%Q) /\
  Forall2 (fun v r => (r == 2 * v - 1)%Q)
          (data (Small.ramp [2; 1; 1; 2] 0)) (data (rescale (Small.ramp [2; 1; 1; 2] 0))).
Proof.
  split; [reflexivity|].
  destruct (generator_loss_composition Small.collab (Small.train_args 1) 3
              (Small.ramp [2; 1; 1; 2] 0) (Small.ramp [2; 1; 1; 2] (1 # 4)) (0 # 1)
              eq_refl) as [_ [H [_ [_ [Hr _]]]]].
  split.
  - apply (H ltac:(simpl; lia) (Small.ramp [2; 1; 1; 2] (1 # 4)) eq_refl).
  - exact (proj1 (proj2 (Hr (Small.ramp [2; 1; 1; 2] 0)))).
Defined.

(** Before [disc_start] the adversarial term is absent. *)
Example generator_loss_before_disc_start :
  exists loss,
    generator_loss Small.collab (Small.train_args 1000005) 3
      (Small.ramp [2; 1; 1; 2] 0) (Small.ramp [2; 1; 1; 2] (1 # 4)) (0 # 1) = Ok loss /\
    (loss == (1 # 4) + (1 # 4))%Q.
Proof. eexists. split; [reflexivity|]. vm_compute. reflexivity. Qed.

End TrainFacts.

(** ** Lists in blocks, and the shapes of the tensor operations *)

Module TFacts.

Lemma numel_app (s1 s2 : list nat) : T.numel (s1 ++ s2) = T.numel s1 * T.numel s2.
Proof.
  induction s1 as [|n s1 IH]; simpl; [lia|]. fold (T.numel (s1 ++ s2)). fold (T.numel s1).
  rewrite IH. lia.
Qed.

Lemma numel_cons (n : nat) (s : list nat) : T.numel (n :: s) = n * T.numel s.
Proof. reflexivity. Qed.

Lemma chunks_length {A} (n c : nat) (l : list A) : length (T.chunks n c l) = c.
Proof.
  revert l. induction c as [|c IH]; intros l; simpl; [reflexivity | rewrite IH; reflexivity].
Qed.

(** Block [i] is the window of [n] entries that starts at [i * n]. *)
Lemma chunks_windows {A} (n c : nat) (l : list A) :
  T.chunks n c l = map (fun i => firstn n (skipn (i * n) l)) (seq 0 c).
Proof.
  revert l. induction c as [|c IH]; intros l; [reflexivity|].
  cbn [T.chunks]. rewrite IH. cbn [seq map]. f_equal.
  rewrite <- seq_shift, map_map. apply map_ext. intros i.
  rewrite skipn_skipn. f_equal. f_equal. lia.
Qed.

Lemma window_entries {A} (d : A) (a n : nat) (l : list A) :
  a + n <= length l ->
  firstn n (skipn a l) = map (fun j => nth (a + j) l d) (seq 0 n).
Proof.
  intros H. apply nth_ext with (d := d) (d' := d).
  - rewrite length_firstn, length_skipn, length_map, length_seq. lia.
  - intros k Hk. rewrite length_firstn, length_skipn in Hk.
    assert (Hkn : k < n) by lia.
    rewrite nth_firstn. destruct (Nat.ltb_spec k n) as [_|]; [|lia].
    rewrite nth_skipn.
    rewrite (nth_indep (map (fun j => nth (a + j) l d) (seq 0 n)) d (nth (a + 0) l d))
      by (rewrite length_map, length_seq; lia).
    rewrite (map_nth (fun j => nth (a + j) l d) (seq 0 n) 0 k).
    rewrite seq_nth by lia. reflexivity.
Qed.

Lemma known_somes (s : list nat) : T.known (map Some s) = s.
Proof. induction s as [|n s IH]; simpl; [reflexivity | f_equal; exact IH]. Qed.

Lemma holes_somes (s : list nat) : T.holes (map Some s) = 0.
Proof. induction s as [|n s IH]; simpl; [reflexivity | exact IH]. Qed.

Lemma known_hole (pre post : list nat) :
  T.known (map Some pre ++ None :: map Some post) = pre ++ post.
Proof.
  unfold T.known. rewrite flat_map_app. cbn [flat_map app].
  fold (T.known (map Some pre)). fold (T.known (map Some post)).
  rewrite !known_somes. reflexivity.
Qed.

Lemma holes_hole (pre post : list nat) :
  T.holes (map Some pre ++ None :: map Some post) = 1.
Proof.
  unfold T.holes. rewrite filter_app, length_app. cbn [filter length].
  fold (T.holes (map Some pre)). fold (T.holes (map Some post)).
  rewrite !holes_somes. reflexivity.
Qed.

(** A [reshape] without [-1] succeeds exactly on the same number of
    entries; with one [-1] it divides. *)
Lemma infer_size_exact (s : list nat) (n : nat) :
  n = T.numel s -> T.infer_size (map Some s) n = Ok s.
Proof.
  intros ->. unfold T.infer_size. rewrite holes_somes, known_somes.
  rewrite Nat.eqb_refl. reflexivity.
Qed.

Lemma infer_size_hole (pre post : list nat) (n k : nat) :
  0 < T.numel pre * T.numel post ->
  n = k * (T.numel pre * T.numel post) ->
  T.infer_size (map Some pre ++ None :: map Some post) n = Ok (pre ++ k :: post).
Proof.
  intros Hpos ->. unfold T.infer_size. rewrite holes_hole, known_hole, numel_app.
  destruct (Nat.ltb_spec 0 (T.numel pre * T.numel post)) as [_|]; [|lia].
  rewrite Nat.Div0.mod_mul, Nat.eqb_refl. cbn [andb].
  rewrite Nat.div_mul by lia. f_equal.
  rewrite map_app, map_map. cbn [map]. rewrite map_map.
  rewrite !map_id. reflexivity.
Qed.

Lemma reshape_exact {A} (s : list nat) (x : tensor A) :
  T.numel (shape x) = T.numel s -> T.reshape (map Some s) x = Ok (Tensor s (data x)).
Proof. intros H. unfold T.reshape. rewrite (@infer_size_exact s _ H). reflexivity. Qed.

Lemma reshape_hole {A} (pre post : list nat) (k : nat) (x : tensor A) :
  0 < T.numel pre * T.numel post ->
  T.numel (shape x) = k * (T.numel pre * T.numel post) ->
  T.reshape (map Some pre ++ None :: map Some post) x = Ok (Tensor (pre ++ k :: post) (data x)).
Proof.
  intros Hpos H. unfold T.reshape. rewrite (@infer_size_hole pre post _ k Hpos H). reflexivity.
Qed.

End TFacts.

(** ** [gradient_penalty] *)

Module GradientPenaltyFacts.

Import GradientPenalty.
Local Open Scope R_scope.

(** C5.  For images of batch size [B >= 1] and the gradient of [output]
    with respect to them (a tensor of the shape of [images], which is what
    the substrate's [autograd.grad] returns), [gradient_penalty] returns
    [weight] times the mean over the [B] batch elements of
    [(||g_i||_2 - 1)^2], [g_i] being the entries of the gradient that
    belong to batch element [i]; without a [weight] argument the weight is
    10.  Entries are real numbers here. *)
Theorem gradient_penalty_formula
        (grad : autograd) (images output : tensor R) (weight : option R)
        (B : nat) (rest : list nat) :
  shape images = B :: rest ->
  (0 < B)%nat ->
  shape (grad output images) = shape images ->
  T.wf (grad output images) ->
  gradient_penalty grad images output weight
  = Ok (penalty_spec (grad output images) B
          (match weight with Some w => w | None => 10 end)) /\
  gradient_penalty grad images output None = gradient_penalty grad images output (Some 10).
Proof.
  intros Hs HB Hg Hwf. split; [|reflexivity].
  unfold gradient_penalty, penalty_spec.
  set (g := grad output images) in *.
  rewrite Hs in Hg. unfold T.size. rewrite Hg. cbn [nth_error bind tl].
  pose proof (@TFacts.reshape_hole R [B] [] (T.numel rest) g) as Hr.
  cbn [map app] in Hr. rewrite Hr; clear Hr.
  2:{ simpl. lia. }
  2:{ rewrite Hg. simpl. fold (T.numel rest). lia. }
  cbn [bind norm2_dim1 shape data].
  unfold default_weight. f_equal. f_equal.
  unfold mean, T.mapT. cbn [data shape].
  rewrite !length_map, TFacts.chunks_length. f_equal.
  rewrite TFacts.chunks_windows, !map_map. f_equal.
  apply map_ext_in. intros i Hi. apply in_seq in Hi.
  unfold sample_norm, entry. f_equal. f_equal. f_equal.
  rewrite (@TFacts.window_entries R 0 (i * T.numel rest) (T.numel rest) (data g)).
  - rewrite map_map. reflexivity.
  - unfold T.wf in Hwf. rewrite Hwf, Hg. simpl. fold (T.numel rest). nia.
Qed.

Lemma gradient_penalty_formula_witness :
  shape (Tensor [2; 2]%nat [3; 4; 0; 1]) = [2; 2]%nat /\
  (0 < 2)%nat /\
  gradient_penalty (fun _ images => images) (Tensor [2; 2]%nat [3; 4; 0; 1])
                   (Tensor [2]%nat [0; 0]) None
  = Ok (penalty_spec (Tensor [2; 2]%nat [3; 4; 0; 1]) 2 10).
Proof.
  split; [reflexivity|]. split; [lia|].
  apply (gradient_penalty_formula (fun _ images => images)
           (Tensor [2; 2]%nat [3; 4; 0; 1]) (Tensor [2]%nat [0; 0]) None
           (B := 2) (rest := [2]%nat)); [reflexivity | lia | reflexivity | reflexivity].
Defined.

(** On that input: the norms are 5 and 1, the penalty is
    [10 * ((5 - 1)^2 + 0) / 2 = 80]. *)
Example penalty_of_two_samples :
  penalty_spec (Tensor [2; 2]%nat [3; 4; 0; 1]) 2 10 = 80.
Proof.
  unfold penalty_spec, sample_norm, entry, sumR. simpl.
  replace (3 * 3 + (4 * 4 + 0)) with (5 * 5) by lra.
  replace (0 * 0 + (1 * 1 + 0)) with (1 * 1) by lra.
  rewrite !sqrt_square by lra. lra.
Qed.

End GradientPenaltyFacts.

(** ** [torch.unique]: distinct entries *)

Module UniqueFacts.

Lemma insert_unique_In (z x : Z) (l : list Z) :
  In x (T.insert_unique z l) <-> x = z \/ In x l.
Proof.
  induction l as [|y l IH]; simpl.
  - intuition.
  - destruct (Z.ltb_spec z y) as [Hlt|Hge]; simpl.
    + intuition.
    + destruct (Z.eqb_spec z y) as [->|Hne]; simpl.
      * intuition.
      * rewrite IH. intuition.
Qed.

Lemma insert_unique_sorted (z : Z) (l : list Z) :
  Sorted.StronglySorted Z.lt l -> Sorted.StronglySorted Z.lt (T.insert_unique z l).
Proof.
  induction 1 as [|y l Hs IH Hall]; simpl.
  - constructor; constructor.
  - destruct (Z.ltb_spec z y) as [Hlt|Hge].
    + constructor; [constructor; assumption|].
      constructor; [assumption|].
      eapply Forall_impl; [|exact Hall]. intros a Ha; simpl in Ha. lia.
    + destruct (Z.eqb_spec z y) as [->|Hne].
      * constructor; assumption.
      * constructor; [exact IH|].
        apply Forall_forall. intros a Ha. apply insert_unique_In in Ha.
        destruct Ha as [->|Ha]; [lia|].
        rewrite Forall_forall in Hall. apply Hall. exact Ha.
Qed.

Lemma sorted_NoDup (l : list Z) : Sorted.StronglySorted Z.lt l -> NoDup l.
Proof.
  induction 1 as [|y l Hs IH Hall]; constructor; [|exact IH].
  intros Hin. rewrite Forall_forall in Hall. specialize (Hall y Hin). lia.
Qed.

Lemma unique_In (x : tensor Z) (z : Z) : In z (data (T.unique x)) <-> In z (data x).
Proof.
  unfold T.unique; simpl. induction (data x) as [|y l IH]; simpl; [tauto|].
  rewrite insert_unique_In, IH. intuition.
Qed.

Lemma unique_NoDup (x : tensor Z) : NoDup (data (T.unique x)).
Proof.
  apply sorted_NoDup. unfold T.unique; simpl.
  induction (data x) as [|y l IH]; simpl; [constructor|].
  apply insert_unique_sorted. exact IH.
Qed.

Lemma unique_size (x : tensor Z) : T.size (T.unique x) 0 = Ok (length (data (T.unique x))).
Proof. reflexivity. Qed.

Lemma unique_nonempty (x : tensor Z) : data x <> [] -> 0 < length (data (T.unique x)).
Proof.
  intros H. destruct (data x) as [|y l] eqn:E; [contradiction|].
  assert (Hin : In y (data (T.unique x))) by (apply unique_In; rewrite E; left; reflexivity).
  destruct (data (T.unique x)); [destruct Hin | simpl; lia].
Qed.

(** As many distinct entries as the range has values, at most. *)
Lemma unique_bound (x : tensor Z) (N : nat) :
  Forall (fun i => (0 <= i < Z.of_nat N)%Z) (data x) ->
  length (data (T.unique x)) <= N.
Proof.
  intros Hall. rewrite Forall_forall in Hall.
  assert (Hnd : NoDup (map Z.to_nat (data (T.unique x)))).
  { apply Injective_map_NoDup_in; [|apply unique_NoDup].
    intros a b Ha Hb Hab.
    apply (proj1 (unique_In x a)) in Ha. apply (proj1 (unique_In x b)) in Hb.
    pose proof (Hall a Ha). pose proof (Hall b Hb). lia. }
  assert (Hincl : incl (map Z.to_nat (data (T.unique x))) (seq 0 N)).
  { intros k Hk. apply in_map_iff in Hk. destruct Hk as [z [<- Hz]].
    apply (proj1 (unique_In x z)) in Hz. pose proof (Hall z Hz).
    apply in_seq. lia. }
  pose proof (NoDup_incl_length Hnd Hincl) as Hlen.
  rewrite length_map, length_seq in Hlen. exact Hlen.
Qed.

Lemma truediv_unit_interval (a b : nat) :
  0 < a -> a <= b ->
  exists q, truediv a b = Ok q /\ (0 < q)%Q /\ (q <= 1)%Q.
Proof.
  intros Ha Hab. unfold truediv.
  destruct (Nat.eqb_spec b 0) as [->|Hb]; [lia|].
  eexists. split; [reflexivity|].
  assert (Hbq : (0 < inject_Z (Z.of_nat b))%Q).
  { unfold Qlt, inject_Z; simpl. lia. }
  split.
  - apply Qlt_shift_div_l; [exact Hbq|]. rewrite Qmult_0_l.
    unfold Qlt, inject_Z; simpl. lia.
  - apply Qle_shift_div_r; [exact Hbq|]. rewrite Qmult_1_l.
    rewrite <- Zle_Qle. lia.
Qed.

End UniqueFacts.

(** ** [decode]: the losses and the bookkeeping attributes *)

Module DecodeFacts.

Import CompressiveVQModelFSQ.

Ltac step_in H :=
  match type of H with
  | context [match ?x with _ => _ end] =>
      let E := fresh "E" in destruct x eqn:E; try discriminate H
  end.

(** What a call of [decode] that returns has done. *)
Lemma decode_returns (self : model) (h d : tensor Q) (st st' : attrs)
      (out : CompressiveVQDecoderOutput) :
  decode self h d st = (st', Ok out) ->
  exists quant info cu,
    call (quantize self) h = Ok (quant, info) /\
    truediv (length (data (T.unique info))) (num_vq_embeddings self) = Ok cu /\
    st' = set_world_unique_code (T.unique info)
            (set_world_code_util cu
               (set_unique_code (T.unique info) (set_code_util cu st))) /\
    commit_loss out = Some (T.scalar 0%Q) /\
    dyn_commit_loss out = Some (T.scalar 0%Q).
Proof.
  unfold decode, bindM, liftM, modifyM, getM, retM. intros H.
  destruct (call (quantize self) h) as [[quant info]|e] eqn:Eq; [|discriminate H].
  rewrite UniqueFacts.unique_size in H. cbn [bind] in H.
  destruct (truediv (length (data (T.unique info))) (num_vq_embeddings self))
    as [cu|e] eqn:Ecu; [|discriminate H].
  exists quant, info, cu. split; [reflexivity|]. split; [exact Ecu|].
  repeat step_in H.
  injection H as Hst Hout. subst st' out. simpl. auto.
Qed.

(** The pixel-path attributes are assigned as soon as the quantizer has
    returned, and nothing later in [decode] touches them, also when a later
    line raises. *)
Lemma decode_code_util (self : model) (h d : tensor Q) (st : attrs)
      (quant : tensor Q) (info : tensor Z) (cu : Q) :
  call (quantize self) h = Ok (quant, info) ->
  truediv (length (data (T.unique info))) (num_vq_embeddings self) = Ok cu ->
  code_util (fst (decode self h d st)) = Holds cu /\
  unique_code (fst (decode self h d st)) = Holds (T.unique info).
Proof.
  intros Eq Ecu. unfold decode, bindM, liftM, modifyM, getM, retM.
  rewrite Eq. rewrite UniqueFacts.unique_size. cbn [bind]. rewrite Ecu.
  repeat match goal with
         | |- context [match ?x with _ => _ end] => destruct x
         end; simpl; auto.
Qed.

(** C1, as the code has it.  Whenever [decode] returns, [commit_loss] and
    [dyn_commit_loss] are the constant [torch.tensor(0.0)]: neither
    depends on the latents or on their quantized codes. *)
Theorem decode_commit_losses_are_zero
        (self : model) (h d : tensor Q) (st st' : attrs)
        (out : CompressiveVQDecoderOutput) :
  decode self h d st = (st', Ok out) ->
  commit_loss out = Some (T.scalar 0%Q) /\ dyn_commit_loss out = Some (T.scalar 0%Q).
Proof.
  intros H. destruct (decode_returns _ _ _ _ H) as [_ [_ [_ [_ [_ [_ [H1 H2]]]]]]].
  split; assumption.
Qed.

Lemma decode_commit_losses_are_zero_witness :
  exists st' out,
    decode (Small.build 1) (Small.ramp [1; 1; 4; 4] 0) (Small.ramp [1; 1; 1] (1 # 2))
           (set_segment_len (Some 1) fresh) = (st', Ok out) /\
    commit_loss out = Some (T.scalar 0%Q) /\ dyn_commit_loss out = Some (T.scalar 0%Q).
Proof.
  eexists. eexists.
  assert (H : decode (Small.build 1) (Small.ramp [1; 1; 4; 4] 0)
                (Small.ramp [1; 1; 1] (1 # 2)) (set_segment_len (Some 1) fresh)
              = (fst (decode (Small.build 1) (Small.ramp [1; 1; 4; 4] 0)
                        (Small.ramp [1; 1; 1] (1 # 2)) (set_segment_len (Some 1) fresh)),
                 Ok {| sample := Tensor [1; 1; 4; 4] (repeat 0%Q 16);
                       ref_sample := Some (Tensor [1; 1; 4; 4]
                         (map inject_Z [0; 0; 1; 1; 2; 2; 2; 2; 2; 2; 2; 2; 2; 2; 2; 2]%Z));
                       commit_loss := Some (T.scalar 0%Q);
                       dyn_commit_loss := Some (T.scalar 0%Q) |}))
    by (vm_compute; reflexivity).
  split; [exact H|].
  exact (decode_commit_losses_are_zero _ _ _ _ H).
Defined.

(** C1, the claim as stated fails: on this input both quantizers change
    their latents (entries 1/2 are rounded), and both losses are zero. *)
Lemma commit_loss_ignores_quantization_error :
  exists quant info quant_d info_d d' st' out,
    call (quantize (Small.build 1)) (Small.ramp [1; 1; 4; 4] 0) = Ok (quant, info) /\
    data quant <> data (Small.ramp [1; 1; 4; 4] 0) /\
    to_quantizer_layout (Small.ramp [1; 1; 1] (1 # 2)) = Ok d' /\
    call (dynamics_quantize (Small.build 1)) d' = Ok (quant_d, info_d) /\
    data quant_d <> data d' /\
    decode (Small.build 1) (Small.ramp [1; 1; 4; 4] 0) (Small.ramp [1; 1; 1] (1 # 2))
           (set_segment_len (Some 1) fresh) = (st', Ok out) /\
    commit_loss out = Some (T.scalar 0%Q) /\
    dyn_commit_loss out = Some (T.scalar 0%Q).
Proof.
  do 7 eexists.
  split; [vm_compute; reflexivity|].
  split; [vm_compute; discriminate|].
  split; [vm_compute; reflexivity|].
  split; [vm_compute; reflexivity|].
  split; [vm_compute; discriminate|].
  split; [vm_compute; reflexivity|].
  split; reflexivity.
Qed.

(** C8, as the code has it.  After a call of [decode] that returns,
    [world_code_util] and [world_unique_code] equal [code_util] and
    [unique_code]: all four come from the indices [info] of the context path.  The dynamics path has no
    part in them: another dynamics input, and another dynamics quantizer,
    leave the two [world_] attributes as they are. *)
Theorem world_attributes_mirror_pixel_attributes
        (self : model) (h d : tensor Q) (st st' : attrs)
        (out : CompressiveVQDecoderOutput) :
  decode self h d st = (st', Ok out) ->
  world_code_util st' = code_util st' /\
  world_unique_code st' = unique_code st' /\
  (exists quant info cu,
      call (quantize self) h = Ok (quant, info) /\
      truediv (length (data (T.unique info))) (num_vq_embeddings self) = Ok cu /\
      world_code_util st' = Holds cu /\
      world_unique_code st' = Holds (T.unique info)) /\
  (forall (self2 : model) (d2 : tensor Q) (st2 st2' : attrs)
          (out2 : CompressiveVQDecoderOutput),
      quantize self2 = quantize self ->
      num_vq_embeddings self2 = num_vq_embeddings self ->
      decode self2 h d2 st2 = (st2', Ok out2) ->
      world_code_util st2' = world_code_util st' /\
      world_unique_code st2' = world_unique_code st').
Proof.
  intros H. destruct (decode_returns _ _ _ _ H) as [quant [info [cu [Eq [Ecu [-> _]]]]]].
  split; [reflexivity|]. split; [reflexivity|]. split.
  - exists quant, info, cu. simpl. auto.
  - intros self2 d2 st2 st2' out2 Hq Hn H2.
    destruct (decode_returns _ _ _ _ H2) as [quant2 [info2 [cu2 [Eq2 [Ecu2 [-> _]]]]]].
    rewrite Hq, Eq in Eq2. injection Eq2 as <- <-.
    rewrite Hn, Ecu in Ecu2. injection Ecu2 as <-.
    simpl. auto.
Qed.

Lemma world_attributes_mirror_pixel_attributes_witness :
  exists st' out,
    decode (Small.build 1) (Small.ramp [1; 1; 4; 4] 0) (Small.ramp [1; 1; 1] (1 # 2))
           (set_segment_len (Some 1) fresh) = (st', Ok out) /\
    world_code_util st' = code_util st' /\
    world_unique_code st' = unique_code st' /\
    world_unique_code st' = Holds (Tensor [3] [0; 1; 2]%Z).
Proof.
  eexists. eexists.
  assert (H : decode (Small.build 1) (Small.ramp [1; 1; 4; 4] 0)
                (Small.ramp [1; 1; 1] (1 # 2)) (set_segment_len (Some 1) fresh)
              = ({| segment_len := Holds (Some 1);
                    code_util := Holds (3 # 3)%Q;
                    unique_code := Holds (Tensor [3] [0; 1; 2]%Z);
                    world_code_util := Holds (3 # 3)%Q;
                    world_unique_code := Holds (Tensor [3] [0; 1; 2]%Z) |},
                 Ok {| sample := Tensor [1; 1; 4; 4] (repeat 0%Q 16);
                       ref_sample := Some (Tensor [1; 1; 4; 4]
                         (map inject_Z [0; 0; 1; 1; 2; 2; 2; 2; 2; 2; 2; 2; 2; 2; 2; 2]%Z));
                       commit_loss := Some (T.scalar 0%Q);
                       dyn_commit_loss := Some (T.scalar 0%Q) |}))
    by (vm_compute; reflexivity).
  split; [exact H|].
  destruct (world_attributes_mirror_pixel_attributes _ _ _ _ H) as [H1 [H2 _]].
  split; [exact H1|]. split; [exact H2|]. reflexivity.
Defined.

(** C8, the claim as stated fails after a call that raises between the two
    pairs of assignments.  With a one-dimensional [d], line 172 raises
    ([transpose(-1, -2)] needs two dimensions): [code_util] and
    [unique_code] are assigned, the [world_] pair is not.  On a new object
    it is missing; after an earlier call that returned it still holds the
    values of that call, 3/3 against 1/3. *)
Lemma world_attributes_lag_after_a_raising_call :
  decode (Small.build 1) (Small.ramp [1; 1; 4; 4] 0) (Tensor [1] [(1 # 2)%Q])
         (set_segment_len (Some 1) fresh)
  = ({| segment_len := Holds (Some 1);
        code_util := Holds (3 # 3)%Q;
        unique_code := Holds (Tensor [3] [0; 1; 2]%Z);
        world_code_util := Unset;
        world_unique_code := Unset |}, Raise IndexError) /\
  exists st1 out st2,
    decode (Small.build 1) (Small.ramp [1; 1; 4; 4] 0) (Small.ramp [1; 1; 1] (1 # 2))
           (set_segment_len (Some 1) fresh) = (st1, Ok out) /\
    decode (Small.build 1) (Small.ramp [1; 1; 2; 2] 5) (Tensor [1] [(1 # 2)%Q]) st1
    = (st2, Raise IndexError) /\
    code_util st2 = Holds (1 # 3)%Q /\
    world_code_util st2 = Holds (3 # 3)%Q /\
    ~ (1 # 3 == 3 # 3)%Q /\
    unique_code st2 = Holds (Tensor [1] [2%Z]) /\
    world_unique_code st2 = Holds (Tensor [3] [0; 1; 2]%Z) /\
    world_code_util st2 <> code_util st2 /\
    world_unique_code st2 <> unique_code st2.
Proof.
  split; [vm_compute; reflexivity|].
  do 3 eexists.
  split; [vm_compute; reflexivity|].
  split; [vm_compute; reflexivity|].
  cbn [code_util world_code_util unique_code world_unique_code].
  repeat split; try reflexivity; discriminate.
Qed.

(** In the returning call above the dynamics indices are not the context
    indices, and only the latter are counted: the dynamics path produced the
    one index 0. *)
Example dynamics_indices_of_the_witness :
  exists d' quant_d,
    to_quantizer_layout (Small.ramp [1; 1; 1] (1 # 2)) = Ok d' /\
    call (dynamics_quantize (Small.build 1)) d' = Ok (quant_d, Tensor [1; 1; 1] [0%Z]).
Proof. do 2 eexists. split; vm_compute; reflexivity. Qed.

(** *** The codebook and its utilisation *)

Lemma init_fields (env : imports) (cfg : config) (n : nat) (self : model) :
  cfg_vq_fsq_levels cfg = inl n ->
  init env cfg = Ok self ->
  vq_fsq_levels self = get_fsq_levels env n /\
  num_vq_embeddings self = prod (get_fsq_levels env n) /\
  quantize self = new_FSQ env (get_fsq_levels env n).
Proof.
  unfold init. intros ->. destruct (cfg_dyn_fsq_levels cfg); [|discriminate].
  intros H. injection H as <-. simpl. auto.
Qed.

(** C7, as the code has it.  A model constructed with an integer
    [vq_fsq_levels] has [num_vq_embeddings] equal to the product of the
    levels [get_fsq_levels] returns, and its quantizer is the [FSQ] on those
    levels.  With an [FSQ] that returns positions of that grid, every call
    of [decode] whose context latents give at least one index leaves
    [0 < code_util <= 1]. *)
Theorem code_util_in_unit_interval
        (env : imports) (cfg : config) (n : nat) (self : model)
        (h d : tensor Q) (st : attrs) (quant : tensor Q) (info : tensor Z) :
  cfg_vq_fsq_levels cfg = inl n ->
  init env cfg = Ok self ->
  fsq_grid env ->
  call (quantize self) h = Ok (quant, info) ->
  data info <> [] ->
  num_vq_embeddings self = prod (get_fsq_levels env n) /\
  exists cu, code_util (fst (decode self h d st)) = Holds cu /\ (0 < cu)%Q /\ (cu <= 1)%Q.
Proof.
  intros Hcfg Hinit Hgrid Hcall Hne.
  destruct (init_fields env cfg Hcfg Hinit) as [_ [Hnum Hq]].
  split; [exact Hnum|].
  assert (Hrange : Forall (fun i => (0 <= i < Z.of_nat (num_vq_embeddings self))%Z)
                          (data info)).
  { rewrite Hnum. rewrite Hq in Hcall. exact (Hgrid _ _ _ _ Hcall). }
  destruct (UniqueFacts.truediv_unit_interval
              (UniqueFacts.unique_nonempty info Hne)
              (UniqueFacts.unique_bound info _ Hrange)) as [cu [Ecu [Hlo Hhi]]].
  exists cu. split; [|split; assumption].
  exact (proj1 (decode_code_util self h d st Hcall Ecu)).
Qed.

(** The quantizer of the small instance stays on its grid. *)
Lemma small_fsq_grid : fsq_grid Small.env.
Proof.
  intros l x quant info H. simpl in H. unfold Small.grid_FSQ in H. simpl in H.
  repeat step_in H.
  injection H as _ <-. simpl.
  apply Forall_map, Forall_forall. intros v _.
  unfold Small.clampZ, prod. simpl.
  match goal with E : (_ =? 0) = false |- _ => apply Nat.eqb_neq in E end.
  lia.
Qed.

Lemma code_util_in_unit_interval_witness :
  cfg_vq_fsq_levels (Small.cfg 1) = inl 3 /\
  init Small.env (Small.cfg 1) = Ok (Small.build 1) /\
  call (quantize (Small.build 1)) (Small.ramp [1; 1; 2; 2] 0)
  = Ok (Tensor [1; 1; 2; 2] (map inject_Z [0; 0; 1; 1]%Z), Tensor [1; 2; 2] [0; 0; 1; 1]%Z) /\
  num_vq_embeddings (Small.build 1) = prod (get_fsq_levels Small.env 3) /\
  exists cu,
    code_util (fst (decode (Small.build 1) (Small.ramp [1; 1; 2; 2] 0)
                      (Small.ramp [1; 1; 1] (1 # 2)) (set_segment_len (Some 1) fresh)))
    = Holds cu /\ (0 < cu)%Q /\ (cu <= 1)%Q.
Proof.
  split; [reflexivity|]. split; [reflexivity|].
  assert (Hcall : call (quantize (Small.build 1)) (Small.ramp [1; 1; 2; 2] 0)
                  = Ok (Tensor [1; 1; 2; 2] (map inject_Z [0; 0; 1; 1]%Z),
                        Tensor [1; 2; 2] [0; 0; 1; 1]%Z))
    by (vm_compute; reflexivity).
  split; [exact Hcall|].
  apply (@code_util_in_unit_interval Small.env (Small.cfg 1) 3
           (Small.build 1) (Small.ramp [1; 1; 2; 2] 0)
           (Small.ramp [1; 1; 1] (1 # 2)) (set_segment_len (Some 1) fresh) _ _
           eq_refl eq_refl small_fsq_grid Hcall).
  simpl. discriminate.
Defined.

(** C7, the claim as stated fails on a batch without entries: the
    quantizer returns no index, [torch.unique] has length 0 and [code_util]
    is [0 / 3]. *)
Lemma code_util_is_zero_on_an_empty_batch :
  cfg_vq_fsq_levels (Small.cfg 1) = inl 3 /\
  init Small.env (Small.cfg 1) = Ok (Small.build 1) /\
  code_util (fst (decode (Small.build 1) (Tensor [0; 1; 4; 4] [])
                    (Small.ramp [1; 1; 1] (1 # 2)) (set_segment_len (Some 1) fresh)))
  = Holds (0 # 3)%Q /\
  ~ (0 < 0 # 3)%Q.
Proof.
  split; [reflexivity|]. split; [reflexivity|]. split; [vm_compute; reflexivity|].
  intros H. discriminate H.
Qed.

End DecodeFacts.

(** ** [tokenize] and [detokenize] *)

Module TokenizerFacts.

Import CompressiveVQModelFSQ.

(** C9.  [tokenize] and [detokenize] raise [AssertionError] whenever their
    [context_length] argument differs from the configured one, whatever
    the tensors; when the two agree the [assert] passes and the call is the
    rest of the method. *)
Theorem context_length_is_asserted
        (self : model) (pixel_values : tensor Q) (indices_c indices_d : tensor Z)
        (context_length_ : nat) (cache : option cache_t) (return_cache : bool) :
  (context_length_ <> context_length self ->
   tokenize self pixel_values context_length_ = Raise AssertionError /\
   detokenize self indices_c indices_d context_length_ cache return_cache
   = Raise AssertionError) /\
  (context_length_ = context_length self ->
   tokenize self pixel_values context_length_
   = tokenize_body self pixel_values context_length_ /\
   detokenize self indices_c indices_d context_length_ cache return_cache
   = detokenize_body self indices_c indices_d context_length_ cache return_cache).
Proof.
  unfold tokenize, detokenize. split; intros H.
  - apply Nat.eqb_neq in H. rewrite H. simpl. auto.
  - apply Nat.eqb_eq in H. rewrite H. simpl. auto.
Qed.

Lemma context_length_is_asserted_witness :
  (2 <> context_length (Small.build 1) /\
   tokenize (Small.build 1) (Small.ramp [1; 2; 1; 4; 4] 0) 2 = Raise AssertionError /\
   detokenize (Small.build 1) (Small.constZ [1; 1; 1280] 1) (Small.constZ [1; 1; 80] 2)
              2 None false = Raise AssertionError) /\
  (1 = context_length (Small.build 1) /\
   tokenize (Small.build 1) (Small.ramp [1; 2; 1; 4; 4] 0) 1
   = tokenize_body (Small.build 1) (Small.ramp [1; 2; 1; 4; 4] 0) 1).
Proof.
  split.
  - split; [discriminate|].
    apply (proj1 (context_length_is_asserted (Small.build 1) (Small.ramp [1; 2; 1; 4; 4] 0)
                    (Small.constZ [1; 1; 1280] 1) (Small.constZ [1; 1; 80] 2)
                    2 None false)).
    discriminate.
  - split; [reflexivity|].
    apply (proj2 (context_length_is_asserted (Small.build 1) (Small.ramp [1; 2; 1; 4; 4] 0)
                    (Small.constZ [1; 1; 1280] 1) (Small.constZ [1; 1; 80] 2)
                    1 None false)).
    reflexivity.
Defined.

End TokenizerFacts.

(** ** Shapes through the sub-modules of the tokenizer *)

Module ShapeFacts.

Lemma gather_shape {A} (x : tensor A) (s' : list nat) (src : list nat -> list nat) :
  shape (T.gather x s' src) = s'.
Proof. reflexivity. Qed.

Lemma permute_shape {A} (perm : list nat) (x : tensor A) :
  (length perm =? T.ndim x) && T.is_perm perm = true ->
  exists y, T.permute perm x = Ok y /\
            shape y = map (fun k => nth k (shape x) 0) perm.
Proof.
  intros H. unfold T.permute. rewrite H. eexists. split; reflexivity.
Qed.

Lemma unfold_shape {A} (dim sz step n : nat) (x : tensor A) :
  nth_error (shape x) dim = Some n -> step <> 0 -> sz <= n ->
  exists y, T.unfold dim sz step x = Ok y /\
            shape y = firstn dim (shape x)
                      ++ ((n - sz) / step + 1) :: skipn (S dim) (shape x) ++ [sz].
Proof.
  intros Hn Hstep Hle. unfold T.unfold. rewrite Hn.
  destruct (Nat.eqb_spec step 0) as [|_]; [contradiction|].
  destruct (Nat.ltb_spec n sz) as [|_]; [lia|].
  eexists. split; reflexivity.
Qed.

Lemma repeat_shape {A} (reps : list nat) (x : tensor A) :
  T.ndim x <= length reps ->
  exists y, T.repeat_ reps x = Ok y /\
            shape y = map (fun p => fst p * snd p)
                          (combine (repeat 1 (length reps - T.ndim x) ++ shape x) reps).
Proof.
  intros H. unfold T.repeat_.
  destruct (Nat.leb_spec (T.ndim x) (length reps)) as [_|]; [|lia].
  eexists. split; reflexivity.
Qed.

Lemma list_nat_eqb_refl (l : list nat) : T.list_nat_eqb l l = true.
Proof.
  unfold T.list_nat_eqb. rewrite Nat.eqb_refl. simpl.
  induction l as [|n l IH]; simpl; [reflexivity|].
  rewrite Nat.eqb_refl. exact IH.
Qed.

Import CompressiveVQModelFSQ.

Ltac use L :=
  let y := fresh "y" in let E := fresh "E" in let S := fresh "S" in
  destruct L as (y & E & S); rewrite E; cbn [bind].

(** Patches: [[M, c, h, w]] becomes [[M, (h/p) * (w/p), p * p * c]]. *)
Lemma patchify_shape (p M c h w : nat) (d : tensor Q) :
  shape d = [M; c; h; w] -> 0 < p -> p <= h -> p <= w -> 0 < M ->
  exists y, patchify p d = Ok y /\
            shape y = [M; ((h - p) / p + 1) * ((w - p) / p + 1); p * p * c].
Proof.
  intros Hd Hp Hh Hw HM. unfold patchify.
  use (@ShapeFacts.permute_shape Q [0; 2; 3; 1] d ltac:(unfold T.ndim; rewrite Hd; reflexivity)).
  rewrite Hd in S. cbn [map nth] in S.
  use (@ShapeFacts.unfold_shape Q 1 p p h y ltac:(rewrite S; reflexivity) ltac:(lia) Hh).
  rewrite S in S0. cbn [firstn skipn app] in S0.
  use (@ShapeFacts.unfold_shape Q 2 p p w y0 ltac:(rewrite S0; reflexivity) ltac:(lia) Hw).
  rewrite S0 in S1. cbn [firstn skipn app] in S1.
  use (@ShapeFacts.permute_shape Q [0; 1; 2; 4; 5; 3] y1
         ltac:(unfold T.ndim; rewrite S1; reflexivity)).
  rewrite S1 in S2. cbn [map nth] in S2.
  unfold T.size. rewrite S2. cbn [nth_error bind].
  set (nh := (h - p) / p + 1) in *. set (nw := (w - p) / p + 1) in *.
  pose proof (@TFacts.reshape_hole Q [M; nh * nw] [] (p * p * c) y2) as Hr.
  cbn [map app] in Hr. rewrite Hr.
  - eexists. split; reflexivity.
  - assert (0 < nh) by (unfold nh; lia). assert (0 < nw) by (unfold nw; lia).
    simpl. nia.
  - rewrite S2. simpl. nia.
Qed.

Lemma floordiv_nat (a b : nat) :
  0 < b -> floordiv (Z.of_nat a) (Z.of_nat b) = Ok (Z.of_nat (a / b)).
Proof.
  intros Hb. unfold floordiv.
  destruct (Z.eqb_spec (Z.of_nat b) 0) as [E|_]; [lia|].
  rewrite Nat2Z.inj_div. reflexivity.
Qed.

Lemma py_dim_nat (n : nat) : py_dim (Z.of_nat n) = Ok (Some n).
Proof.
  unfold py_dim.
  destruct (Z.eqb_spec (Z.of_nat n) (-1)) as [E|_]; [lia|].
  destruct (Z.ltb_spec (Z.of_nat n) 0) as [E|_]; [lia|].
  rewrite Nat2Z.id. reflexivity.
Qed.

Lemma py_count_nat (n : nat) : py_count (Z.of_nat n) = Ok n.
Proof.
  unfold py_count.
  destruct (Z.ltb_spec (Z.of_nat n) 0) as [E|_]; [lia|].
  rewrite Nat2Z.id. reflexivity.
Qed.

(** De-patchify: [[n, (h/p) * (w/p), c * p * p]] becomes [[n, c, h, w]],
    [h] and [w] being those of the context latents. *)
Lemma depatchify_shape (p c n N cc hp wp : nat) (quant2 quant2_d : tensor Q) :
  shape quant2 = [N; cc; hp * p; wp * p] ->
  shape quant2_d = [n; hp * wp; c * p * p] ->
  0 < p ->
  exists y, depatchify p c quant2 quant2_d = Ok y /\
            shape y = [n; c; hp * p; wp * p].
Proof.
  intros H2 Hd Hp. unfold depatchify, T.size_from_end, T.size, T.ndim.
  rewrite H2, Hd. cbn [length Nat.leb andb Nat.sub nth_error bind].
  rewrite !floordiv_nat by exact Hp. cbn [bind]. rewrite !Nat2Z.id.
  rewrite !Nat.div_mul by lia.
  pose proof (@TFacts.reshape_exact Q [n; hp; wp; p; p; c] quant2_d) as Hr.
  cbn [map] in Hr. rewrite Hr by (rewrite Hd; simpl; nia). clear Hr. cbn [bind].
  unfold T.permute at 1. unfold T.ndim. cbn [shape length Nat.eqb T.is_perm forallb seq existsb
    andb orb map nth bind T.gather nth_error].
  pose proof (@TFacts.reshape_exact Q [n; c; hp * p; wp * p]) as Hr.
  cbn [map] in Hr. rewrite Hr by (simpl; nia).
  eexists. split; reflexivity.
Qed.

(** The feature maps of the context frames, once per future frame. *)
Lemma repeat_single_ok (N fl : nat) (f : tensor Q) :
  feature N f ->
  exists f', repeat_single (Ok (Z.of_nat fl)) f = Ok f' /\ conditioned 1 (N * fl) f'.
Proof.
  intros (cf & hf & wf & Hpos & Hs). unfold repeat_single, T.unsqueeze1.
  rewrite Hs. cbn [bind]. rewrite py_count_nat. cbn [bind].
  assert (Hn : T.ndim (Tensor [N; 1; cf; hf; wf] (data f)) <= length [1; fl; 1; 1; 1])
    by (unfold T.ndim; simpl; lia).
  use (repeat_shape [1; fl; 1; 1; 1] (Tensor [N; 1; cf; hf; wf] (data f)) Hn).
  cbn [T.ndim shape length Nat.sub repeat app combine map fst snd] in S.
  unfold T.last3, T.ndim. rewrite Hs. cbn [length Nat.sub skipn map].
  pose proof (@TFacts.reshape_hole Q [] [cf; hf; wf] (N * fl) y) as Hr.
  cbn [map app] in Hr. rewrite Hr.
  - eexists. split; [reflexivity|]. exists cf, hf, wf. split; [exact Hpos|]. reflexivity.
  - simpl. lia.
  - rewrite S. simpl. nia.
Qed.

Lemma repeat_context_ok (B t fl : nat) (f : tensor Q) :
  0 < t ->
  feature (B * t) f ->
  exists f', repeat_context (Z.of_nat B) t (Ok (Z.of_nat fl)) f = Ok f' /\
             shape f' = [B * fl; t] ++ T.last3 f /\
             exists cf hf wf, 0 < cf * hf * wf /\ T.last3 f = [cf; hf; wf].
Proof.
  intros Ht (cf & hf & wf & Hpos & Hs). unfold repeat_context.
  rewrite py_dim_nat. cbn [bind].
  unfold T.last3, T.ndim. rewrite Hs. cbn [length Nat.sub skipn map].
  pose proof (@TFacts.reshape_exact Q [B; t; cf; hf; wf] f) as Hr.
  cbn [map] in Hr. rewrite Hr by (rewrite Hs; simpl; nia). clear Hr. cbn [bind].
  unfold T.unsqueeze1. cbn [shape data bind]. rewrite py_count_nat. cbn [bind].
  assert (Hn : T.ndim (Tensor [B; 1; t; cf; hf; wf] (data f)) <= length [1; fl; 1; 1; 1; 1])
    by (unfold T.ndim; simpl; lia).
  use (repeat_shape [1; fl; 1; 1; 1; 1] (Tensor [B; 1; t; cf; hf; wf] (data f)) Hn).
  cbn [T.ndim shape length Nat.sub repeat app combine map fst snd] in S.
  cbn [map].
  pose proof (@TFacts.reshape_hole Q [] [t; cf; hf; wf] (B * fl) y) as Hr.
  cbn [map app] in Hr. rewrite Hr.
  - eexists. split; [reflexivity|]. split; [reflexivity|]. exists cf, hf, wf. split; [exact Hpos | reflexivity].
  - simpl. nia.
  - rewrite S. simpl. nia.
Qed.

Lemma condition_features_ok (B t fl : nat) (fs : list (tensor Q)) :
  0 < t -> 0 < fl ->
  Forall (feature (B * t)) fs ->
  exists fs', condition_features t t (Ok (B * fl)) (Ok (Z.of_nat fl)) fs = Ok fs' /\
              Forall (conditioned t (B * fl)) fs'.
Proof.
  intros Ht Hfl Hfs. unfold condition_features.
  destruct (Nat.ltb_spec 1 t) as [Hgt|Hle].
  - cbn [bind]. rewrite floordiv_nat by exact Hfl. cbn [bind].
    rewrite Nat.div_mul by lia.
    apply (@mapM_Forall2 _ _ (repeat_context (Z.of_nat B) t (Ok (Z.of_nat fl)))
             (feature (B * t)) (conditioned t (B * fl))); [|exact Hfs].
    intros f Hf. destruct (@repeat_context_ok B t fl f Ht Hf)
      as (f' & E & S & cf & hf & wf & Hpos & Hl).
    exists f'. split; [exact E|]. exists cf, hf, wf. split; [exact Hpos|].
    destruct (Nat.ltb_spec 1 t) as [_|]; [|lia]. rewrite S, Hl. reflexivity.
  - assert (t = 1) by lia. subst t. rewrite Nat.mul_1_r in Hfs.
    apply (@mapM_Forall2 _ _ (repeat_single (Ok (Z.of_nat fl)))
             (feature B) (conditioned 1 (B * fl))); [|exact Hfs].
    intros f Hf. exact (@repeat_single_ok B fl f Hf).
Qed.

Lemma batch_after_ok (B t fl : nat) :
  0 < fl -> batch_after t B (Ok (B * fl)) (Z.of_nat fl) = Ok (Z.of_nat B).
Proof.
  intros Hfl. unfold batch_after. destruct (1 <? t); [|reflexivity].
  cbn [bind]. rewrite floordiv_nat by exact Hfl. rewrite Nat.div_mul by lia. reflexivity.
Qed.

End ShapeFacts.

Module FrameFacts.

Import CompressiveVQModelFSQ.

Lemma firstn_add {A} (a b : nat) (l : list A) :
  firstn (a + b) l = firstn a l ++ firstn b (skipn a l).
Proof.
  revert l. induction a as [|a IH]; intros l; [reflexivity|].
  destruct l as [|x l]; simpl.
  - rewrite firstn_nil. reflexivity.
  - rewrite IH. reflexivity.
Qed.

(** A run of [n] blocks is the blocks one after the other. *)
Lemma blocks_from {A} (R n a : nat) (l : list A) :
  firstn (n * R) (skipn (a * R) l)
  = flat_map (fun t => firstn R (skipn (t * R) l)) (seq a n).
Proof.
  revert a. induction n as [|n IH]; intros a; [reflexivity|].
  cbn [seq flat_map]. rewrite <- IH.
  replace (S n * R) with (R + n * R) by lia.
  rewrite firstn_add, skipn_skipn. reflexivity.
Qed.

Lemma frame_of_sample {A} (x : tensor A) (B T_ : nat) (rest : list nat) (b t : nat) :
  shape x = B :: T_ :: rest ->
  frame_entries x b t
  = firstn (T.numel rest)
           (skipn (t * T.numel rest) (skipn (b * (T_ * T.numel rest)) (data x))).
Proof.
  intros Hs. unfold frame_entries. rewrite Hs. rewrite skipn_skipn. f_equal. f_equal. lia.
Qed.

(** [x[:, :k]] flattened over the batch is frames [0 .. k) of every sample,
    and [x[:, k:]] is the frames from [k] on. *)
Lemma leading_frames {A} (x : tensor A) (B T_ C H W k : nat) :
  shape x = [B; T_; C; H; W] -> k <= T_ -> 0 < C * H * W ->
  (y <- T.slice1_to k x ;; T.reshape [None; Some C; Some H; Some W] y)%py
  = Ok (frames x 0 k).
Proof.
  intros Hs Hk Hpos. unfold T.slice1_to. rewrite Hs. cbn [bind].
  rewrite Nat.min_l by exact Hk.
  set (R := T.numel [C; H; W]).
  pose proof (@TFacts.reshape_hole A [] [C; H; W] (B * k)
                (Tensor [B; k; C; H; W]
                   (flat_map (firstn (k * R)) (T.chunks (T_ * R) B (data x))))) as Hr.
  cbn [map app] in Hr. rewrite Hr; clear Hr.
  2:{ simpl. lia. }
  2:{ simpl. nia. }
  unfold frames. rewrite Hs. cbn [app data]. f_equal. f_equal.
  rewrite TFacts.chunks_windows, flat_map_concat_map, map_map, <- flat_map_concat_map.
  apply flat_map_ext. intros b.
  rewrite firstn_firstn, Nat.min_l by (apply Nat.mul_le_mono_r; exact Hk).
  change (firstn (k * R) (skipn (b * (T_ * R)) (data x)))
    with (firstn (k * R) (skipn (0 * R) (skipn (b * (T_ * R)) (data x)))).
  rewrite blocks_from. apply flat_map_ext. intros t.
  rewrite (frame_of_sample x b t Hs). reflexivity.
Qed.

Lemma trailing_frames {A} (x : tensor A) (B T_ C H W k : nat) :
  shape x = [B; T_; C; H; W] -> k <= T_ -> 0 < C * H * W ->
  (y <- T.slice1_from k x ;; T.reshape [None; Some C; Some H; Some W] y)%py
  = Ok (frames x k (T_ - k)).
Proof.
  intros Hs Hk Hpos. unfold T.slice1_from. rewrite Hs. cbn [bind].
  rewrite Nat.min_l by exact Hk.
  set (R := T.numel [C; H; W]).
  pose proof (@TFacts.reshape_hole A [] [C; H; W] (B * (T_ - k))
                (Tensor [B; T_ - k; C; H; W]
                   (flat_map (skipn (k * R)) (T.chunks (T_ * R) B (data x))))) as Hr.
  cbn [map app] in Hr. rewrite Hr; clear Hr.
  2:{ simpl. lia. }
  2:{ simpl. nia. }
  unfold frames. rewrite Hs. cbn [app data]. f_equal. f_equal.
  rewrite TFacts.chunks_windows, flat_map_concat_map, map_map, <- flat_map_concat_map.
  apply flat_map_ext. intros b.
  rewrite skipn_firstn_comm.
  replace (T_ * R - k * R) with ((T_ - k) * R) by nia.
  rewrite blocks_from. apply flat_map_ext. intros t.
  rewrite (frame_of_sample x b t Hs). reflexivity.
Qed.

End FrameFacts.

Module TokenizeShapes.

Import CompressiveVQModelFSQ.

Lemma frames_shape {A} (x : tensor A) (B T_ : nat) (rest : list nat) (t0 n : nat) :
  shape x = B :: T_ :: rest -> shape (frames x t0 n) = B * n :: rest.
Proof. intros Hs. unfold frames. rewrite Hs. reflexivity. Qed.

Lemma to_quantizer_layout_shape (M L D : nat) (d : tensor Q) :
  shape d = [M; L; D] ->
  exists y, to_quantizer_layout d = Ok y /\ shape y = [M; D; L; 1].
Proof.
  intros Hd. unfold to_quantizer_layout, T.transpose_last2, T.ndim. rewrite Hd.
  cbn [length Nat.leb Nat.sub seq app].
  destruct (@ShapeFacts.permute_shape Q [0; 2; 1] d) as (y & E & S).
  { unfold T.ndim. rewrite Hd. reflexivity. }
  rewrite E. cbn [bind]. eexists. split; [reflexivity|].
  unfold T.unsqueeze_last. cbn [shape]. rewrite S, Hd. reflexivity.
Qed.

(** What [tokenize] computes on such a video, step by step. *)
Lemma tokenize_trace
        (self : model) (pixel_values : tensor Q)
        (B T_ C H W cl gh gw gh2 gw2 : nat) :
  shape pixel_values = [B; T_; C; H; W] ->
  0 < B -> 0 < C * H * W ->
  cl = context_length self -> 0 < cl -> cl < T_ ->
  encoding_contract self C H W gh gw gh2 gw2 ->
  exists h feats cond d quant info quant_d info_d,
    encoder self (frames pixel_values 0 cl) = Ok (h, feats) /\
    condition_features cl cl (Ok (B * (T_ - cl))) (Ok (Z.of_nat (T_ - cl))) feats = Ok cond /\
    (x <- cond_encoder self (frames pixel_values cl (T_ - cl)) cond ;;
     y <- patchify (patch_size self) x ;;
     quant_linear self y)%py = Ok d /\
    (x <- quant_conv self h ;; call (quantize self) x)%py = Ok (quant, info) /\
    (x <- to_quantizer_layout d ;; call (dynamics_quantize self) x)%py = Ok (quant_d, info_d) /\
    tokenize self pixel_values cl
    = Ok (Tensor [B; cl; gh * gw] (data info),
          Tensor [B; T_ - cl;
                  ((gh2 - patch_size self) / patch_size self + 1)
                  * ((gw2 - patch_size self) / patch_size self + 1)] (data info_d)).
Proof.
  intros Hs HB Hpos Hcl Hcl0 HclT [Hp [Hfh Hfw] Henc Hqc Hq Hce Hql Hdq].
  set (fl := T_ - cl). assert (Hfl : 0 < fl) by (unfold fl; lia).
  set (p := patch_size self) in *.
  pose proof (frames_shape pixel_values 0 cl Hs) as Sctx.
  pose proof (frames_shape pixel_values cl fl Hs) as Sfut.
  destruct (Henc _ _ Sctx) as (h & feats & Eenc & Sh & Hfeats).
  destruct (@ShapeFacts.condition_features_ok B cl fl feats Hcl0 Hfl Hfeats)
    as (cond & Econd & Hcond).
  destruct (Hqc _ _ Sh) as (hq & Ehq & Shq).
  destruct (Hq _ _ Shq) as (quant & info & Equant & _ & Sinfo).
  rewrite Hcl in Hcond.
  destruct (Hce _ _ _ Sfut Hcond) as (d0 & Ed0 & Sd0).
  destruct (@ShapeFacts.patchify_shape p (B * fl) _ gh2 gw2 d0 Sd0 Hp Hfh Hfw
              ltac:(nia)) as (d1 & Ed1 & Sd1).
  replace (p * p * dyna_latent_channels self)
    with (dyna_latent_channels self * p * p) in Sd1 by lia.
  destruct (Hql _ _ _ Sd1) as (d & Ed & Sd).
  destruct (@to_quantizer_layout_shape _ _ _ d Sd) as (d' & Ed' & Sd').
  destruct (Hdq _ _ _ Sd') as (quant_d & info_d & Edq & _ & Sinfo_d).
  exists h, feats, cond, d, quant, info, quant_d, info_d.
  split; [exact Eenc|]. split; [exact Econd|].
  split; [rewrite Ed0; cbn [bind]; rewrite Ed1; cbn [bind]; exact Ed|].
  split; [rewrite Ehq; cbn [bind]; exact Equant|].
  split; [rewrite Ed'; cbn [bind]; exact Edq|].
  unfold tokenize. rewrite Hcl, Nat.eqb_refl. cbn [negb].
  unfold tokenize_body. rewrite Hs, <- Hcl.
  rewrite (FrameFacts.leading_frames pixel_values Hs (Nat.lt_le_incl _ _ HclT) Hpos).
  rewrite (FrameFacts.trailing_frames pixel_values Hs (Nat.lt_le_incl _ _ HclT) Hpos).
  cbn [bind]. rewrite Eenc. cbn [bind].
  replace (Z.of_nat T_ - Z.of_nat cl)%Z with (Z.of_nat fl) by (unfold fl; lia).
  fold fl. unfold T.size at 1. rewrite Sfut. cbn [nth_error].
  rewrite (ShapeFacts.batch_after_ok B cl Hfl). cbn [bind].
  unfold T.size at 1. rewrite Sfut. cbn [nth_error].
  rewrite Econd. cbn [bind]. rewrite Ehq. cbn [bind].
  rewrite Ed0. cbn [bind]. fold p. rewrite Ed1. cbn [bind]. rewrite Ed. cbn [bind].
  rewrite Equant. cbn [bind]. rewrite Ed'. cbn [bind]. rewrite Edq. cbn [bind].
  rewrite !ShapeFacts.py_dim_nat. cbn [bind].
  pose proof (@TFacts.reshape_hole Z [B; cl] [] (gh * gw) info) as Hr.
  cbn [map app] in Hr. rewrite Hr by (rewrite ?Sinfo; simpl; nia). clear Hr. cbn [bind].
  pose proof (@TFacts.reshape_hole Z [B; fl] []
                (((gh2 - p) / p + 1) * ((gw2 - p) / p + 1)) info_d) as Hr.
  cbn [map app] in Hr. rewrite Hr by (rewrite ?Sinfo_d; simpl; nia). clear Hr.
  reflexivity.
Qed.


End TokenizeShapes.

Module SmallFacts.

Import CompressiveVQModelFSQ.

(** The small instance keeps to the shapes the theorems rely on, for frames
    of one channel that hold at least one patch. *)
Lemma small_encoding_contract (cl H W : nat) :
  4 <= H -> 4 <= W -> encoding_contract (Small.build cl) 1 H W H W H W.
Proof.
  intros HH HW. constructor.
  - cbn. lia.
  - cbn. lia.
  - intros x N Hx. cbn. unfold Small.with_features, Small.conv, T.size. rewrite Hx.
    cbn. eexists. eexists. split; [reflexivity|]. split; [reflexivity|].
    constructor; [|constructor]. exists 1, 1, 1. split; [lia | reflexivity].
  - intros x N Hx. cbn in *. unfold Small.conv. rewrite Hx. cbn.
    eexists. split; reflexivity.
  - intros x N Hx. cbn in *. rewrite Hx. cbn.
    eexists. eexists. split; [reflexivity|]. split; [cbn; rewrite Hx|]; reflexivity.
  - intros x fs M Hx _. cbn. unfold Small.ignoring_features, Small.conv. rewrite Hx. cbn.
    eexists. split; reflexivity.
  - intros x M L Hx. cbn in *. unfold Small.linear. rewrite Hx. cbn.
    eexists. split; reflexivity.
  - intros x M L Hx. cbn in *. rewrite Hx. cbn.
    eexists. eexists. split; [reflexivity|]. split; [cbn; rewrite Hx|]; reflexivity.
Qed.

End SmallFacts.

(** ** [tokenize] without future frames *)

Module TokenizeEdges.

Import CompressiveVQModelFSQ.


(** A [bind] whose continuation never returns does not return. *)
Lemma bind_never {A B} (r : result A) (k : A -> result B) :
  (forall a, returns (k a) = false) -> returns (bind r k) = false.
Proof. intros H. destruct r as [a|e]; [apply H | reflexivity]. Qed.

Lemma bind_never_l {A B} (r : result A) (k : A -> result B) :
  returns r = false -> returns (bind r k) = false.
Proof. destruct r as [a|e]; [discriminate | reflexivity]. Qed.

Lemma reshape_zero_hole {A} (b fl : option nat) (x : tensor A) :
  fl = Some 0 \/ fl = None -> returns (T.reshape [b; fl; None] x) = false.
Proof.
  intros [-> | ->]; unfold T.reshape, T.infer_size; destruct b as [n|]; cbn.
  - rewrite Nat.mul_0_r. reflexivity.
  - reflexivity.
  - reflexivity.
  - reflexivity.
Qed.




End TokenizeEdges.

(** ** Concatenation along the frame dimension *)

Module CatFacts.

Import CompressiveVQModelFSQ.

Lemma Ok_inj {A} (a b : A) : Ok a = Ok b -> a = b.
Proof. intros H. injection H as H. exact H. Qed.

Lemma chunks_full {A} (n c : nat) (l : list A) :
  length l = c * n ->
  concat (T.chunks n c l) = l /\ Forall (fun ch => length ch = n) (T.chunks n c l).
Proof.
  revert l. induction c as [|c IH]; intros l Hl.
  - destruct l; [split; [reflexivity | constructor] | discriminate].
  - cbn [T.chunks concat].
    destruct (IH (skipn n l)) as [Hc Hf].
    { rewrite length_skipn. lia. }
    rewrite Hc, firstn_skipn. split; [reflexivity|].
    constructor; [|exact Hf]. rewrite length_firstn. lia.
Qed.

Lemma chunks_concat {A} (n : nat) (ls : list (list A)) :
  Forall (fun l => length l = n) ls -> T.chunks n (length ls) (concat ls) = ls.
Proof.
  induction 1 as [|l ls Hl Hls IH]; [reflexivity|].
  cbn [length T.chunks concat].
  assert (E1 : firstn n (l ++ concat ls) = l).
  { rewrite firstn_app, Hl, Nat.sub_diag. cbn [firstn].
    rewrite app_nil_r. apply firstn_all2. lia. }
  assert (E2 : skipn n (l ++ concat ls) = concat ls).
  { rewrite skipn_app, Hl, Nat.sub_diag. cbn [skipn].
    rewrite skipn_all2 by lia. reflexivity. }
  rewrite E1, E2, IH. reflexivity.
Qed.

(** Pairs of blocks joined: the first parts are the first blocks, the rest
    the second blocks. *)
Lemma joined_blocks {A} (n1 n2 : nat) (cs ds : list (list A)) :
  length cs = length ds ->
  Forall (fun l => length l = n1) cs ->
  Forall (fun l => length l = n2) ds ->
  let zs := map (fun p => fst p ++ snd p) (combine cs ds) in
  length zs = length cs /\
  Forall (fun l => length l = n1 + n2) zs /\
  flat_map (firstn n1) zs = concat cs /\
  flat_map (skipn n1) zs = concat ds.
Proof.
  intros Hlen Hcs. revert ds Hlen.
  induction Hcs as [|c cs Hc Hcs IH]; intros ds Hlen Hds zs.
  - subst zs. cbn. repeat split; try constructor.
    destruct ds; [reflexivity | discriminate].
  - destruct ds as [|d ds]; [discriminate|].
    inversion Hds as [|? ? Hd Hds']; subst.
    injection Hlen as Hlen.
    destruct (IH ds Hlen Hds') as (L & F & F1 & F2).
    subst zs. cbn [combine map flat_map concat length fst snd].
    split; [rewrite L; reflexivity|].
    split; [constructor; [rewrite length_app; lia | exact F]|].
    split.
    + rewrite F1. f_equal. rewrite firstn_app, Nat.sub_diag, firstn_all.
      cbn [firstn]. apply app_nil_r.
    + rewrite F2. f_equal. rewrite skipn_app, Nat.sub_diag, skipn_all.
      reflexivity.
Qed.

(** Cutting a concatenation along the frame dimension where it was joined
    gives the two parts back. *)
Lemma cat1_then_frames {A} (x y : tensor A) (B t1 t2 C H W : nat) :
  shape x = [B; t1; C; H; W] -> shape y = [B; t2; C; H; W] ->
  T.wf x -> T.wf y -> 0 < C * H * W ->
  exists z, T.cat1 x y = Ok z /\
            shape z = [B; t1 + t2; C; H; W] /\
            frames z 0 t1 = Tensor [B * t1; C; H; W] (data x) /\
            frames z t1 t2 = Tensor [B * t2; C; H; W] (data y).
Proof.
  intros Hx Hy Wx Wy Hpos. unfold T.cat1. rewrite Hx, Hy.
  rewrite Nat.eqb_refl, ShapeFacts.list_nat_eqb_refl. cbn [andb].
  set (R := T.numel [C; H; W]).
  set (cs := T.chunks (t1 * R) B (data x)).
  set (ds := T.chunks (t2 * R) B (data y)).
  unfold T.wf in Wx, Wy. rewrite Hx in Wx. rewrite Hy in Wy.
  rewrite TFacts.numel_cons, TFacts.numel_cons in Wx, Wy. fold R in Wx, Wy.
  destruct (@chunks_full A (t1 * R) B (data x) Wx) as [Cx Fx].
  destruct (@chunks_full A (t2 * R) B (data y) Wy) as [Cy Fy].
  fold cs in Cx, Fx. fold ds in Cy, Fy.
  assert (Lc : length cs = B) by apply TFacts.chunks_length.
  assert (Ld : length ds = B) by apply TFacts.chunks_length.
  destruct (@joined_blocks A (t1 * R) (t2 * R) cs ds ltac:(lia) Fx Fy) as (L & F & F1 & F2).
  set (zs := map (fun p => fst p ++ snd p) (combine cs ds)) in *.
  eexists. split; [reflexivity|]. split; [reflexivity|].
  assert (Hz : shape (Tensor [B; t1 + t2; C; H; W] (concat zs)) = [B; t1 + t2; C; H; W])
    by reflexivity.
  assert (Hch : T.chunks ((t1 + t2) * R) B (concat zs) = zs).
  { rewrite <- Lc, <- L. apply chunks_concat.
    replace ((t1 + t2) * R) with (t1 * R + t2 * R) by lia. exact F. }
  split.
  - pose proof (@FrameFacts.leading_frames A _ B (t1 + t2) C H W t1 Hz
                  ltac:(lia) Hpos) as E.
    unfold T.slice1_to in E. cbn [shape data bind] in E.
    rewrite Nat.min_l in E by lia. fold R in E. rewrite Hch, F1, Cx in E.
    pose proof (@TFacts.reshape_hole A [] [C; H; W] (B * t1)
                  (Tensor [B; t1; C; H; W] (data x))) as Hr.
    cbn [map app] in Hr. rewrite Hr in E by (simpl; nia).
    apply Ok_inj in E. symmetry. exact E.
  - pose proof (@FrameFacts.trailing_frames A _ B (t1 + t2) C H W t1 Hz
                  ltac:(lia) Hpos) as E.
    unfold T.slice1_from in E. cbn [shape data bind] in E.
    rewrite Nat.min_l in E by lia. fold R in E. rewrite Hch, F2, Cy in E.
    replace (t1 + t2 - t1) with t2 in E by lia.
    pose proof (@TFacts.reshape_hole A [] [C; H; W] (B * t2)
                  (Tensor [B; t2; C; H; W] (data y))) as Hr.
    cbn [map app] in Hr. rewrite Hr in E by (simpl; nia).
    apply Ok_inj in E. symmetry. exact E.
Qed.

End CatFacts.

(** ** [detokenize] *)

Module DetokenizeFacts.

Import CompressiveVQModelFSQ.

Lemma tensor_eta {A} (x : tensor A) (s : list nat) :
  shape x = s -> Tensor s (data x) = x.
Proof. intros <-. destruct x; reflexivity. Qed.

(** What [detokenize] computes on such indices, step by step. *)
Lemma detokenize_trace
        (self : model) (indices_c indices_d : tensor Z) (B cl fl Co Ho Wo : nat) :
  shape indices_c = [B; cl; 1280] ->
  shape indices_d = [B; fl; 80] ->
  0 < B -> 0 < fl -> 0 < cl ->
  cl = context_length self ->
  patch_size self = 4 ->
  0 < length (dyn_fsq_levels self) ->
  0 < Co * Ho * Wo ->
  decoding_contract self Co Ho Wo ->
  exists codes codes_d quant2 quant2_d context_dec feats cond dec out,
    indices_to_codes (quantize self) (Tensor [B; cl * 1280] (data indices_c)) = Ok codes /\
    indices_to_codes (dynamics_quantize self) (Tensor [B; fl * 80] (data indices_d))
    = Ok codes_d /\
    shape quant2 = [B * cl; latent_channels self; 32; 40] /\
    shape quant2_d = [B * fl; dyna_latent_channels self; 32; 40] /\
    decoder self quant2 = Ok (context_dec, feats) /\
    condition_features cl cl (Ok (B * fl)) (Ok (Z.of_nat fl)) feats = Ok cond /\
    cond_decoder self quant2_d cond = Ok dec /\
    detokenize self indices_c indices_d cl None false = Ok (out, None) /\
    shape out = [B; cl + fl; Co; Ho; Wo] /\
    frames out 0 cl = context_dec /\
    frames out cl fl = dec.
Proof.
  intros Hc Hd HB Hfl Hcl0 Hcl Hp HD2 Hpos [Hcodes Hdcodes Hpqc Hpql Hdec Hcdec].
  cbn [ctx_res fst snd] in *.
  set (D := length (vq_fsq_levels self)) in *.
  set (D2 := length (dyn_fsq_levels self)) in *.
  set (c := dyna_latent_channels self) in *.
  rewrite Hp in *.
  (* the context path *)
  destruct (Hcodes (Tensor [B; cl * 1280] (data indices_c)) B (cl * 1280) eq_refl)
    as (codes & Ecodes & Scodes).
  assert (Eq1 : T.reshape [Some (B * cl); Some 32; Some 40; Some D] codes
                = Ok (Tensor [B * cl; 32; 40; D] (data codes))).
  { apply (@TFacts.reshape_exact Q [B * cl; 32; 40; D] codes).
    rewrite Scodes. simpl. nia. }
  destruct (@ShapeFacts.permute_shape Q [0; 3; 1; 2] (Tensor [B * cl; 32; 40; D] (data codes))
              eq_refl) as (q1 & Eq1' & Sq1).
  cbn [shape map nth] in Sq1.
  destruct (Hpqc q1 (B * cl) Sq1) as (quant2 & Equant2 & Squant2).
  (* the dynamics path *)
  destruct (Hdcodes (Tensor [B; fl * 80] (data indices_d)) B (fl * 80) eq_refl)
    as (codes_d & Ecodes_d & Scodes_d).
  assert (Eq2 : T.reshape [None; Some 80; Some D2] codes_d
                = Ok (Tensor [B * fl; 80; D2] (data codes_d))).
  { apply (@TFacts.reshape_hole Q [] [80; D2] (B * fl) codes_d).
    - simpl. nia.
    - rewrite Scodes_d. simpl. nia. }
  destruct (Hpql (Tensor [B * fl; 80; D2] (data codes_d)) (B * fl) 80 eq_refl)
    as (q2 & Eq2' & Sq2).
  destruct (@ShapeFacts.depatchify_shape 4 c (B * fl) (B * cl) (latent_channels self) 8 10
              quant2 q2 Squant2 Sq2 ltac:(lia)) as (quant2_d & Edep & Sdep).
  cbn [Nat.mul Nat.add] in Sdep.
  (* the decoders *)
  destruct (Hdec quant2 (B * cl) Squant2) as (context_dec & feats & Edec & Wcd & Scd & Hfeats).
  destruct (@ShapeFacts.condition_features_ok B cl fl feats Hcl0 Hfl Hfeats)
    as (cond & Econd & Hcond).
  rewrite Hcl in Hcond.
  destruct (Hcdec quant2_d cond (B * fl) Sdep Hcond) as (dec & Ecdec & Wd & Sd).
  destruct (@CatFacts.cat1_then_frames Q
              (Tensor [B; cl; Co; Ho; Wo] (data context_dec))
              (Tensor [B; fl; Co; Ho; Wo] (data dec)) B cl fl Co Ho Wo eq_refl eq_refl)
    as (out & Ecat & Sout & Fc & Ff).
  { unfold T.wf in *. rewrite Scd in Wcd. cbn [shape data]. rewrite Wcd. simpl. nia. }
  { unfold T.wf in *. rewrite Sd in Wd. cbn [shape data]. rewrite Wd. simpl. nia. }
  { exact Hpos. }
  exists codes, codes_d, quant2, quant2_d, context_dec, feats, cond, dec, out.
  split; [exact Ecodes|]. split; [exact Ecodes_d|].
  split; [exact Squant2|]. split; [exact Sdep|].
  split; [exact Edec|]. split; [exact Econd|]. split; [exact Ecdec|].
  split; [|split; [exact Sout|split]].
  - unfold detokenize. rewrite Hcl, Nat.eqb_refl. cbn [negb].
    unfold detokenize_body. rewrite <- Hcl. unfold T.size. rewrite Hc, Hd.
    cbn [nth_error bind].
    pose proof (@TFacts.reshape_hole Z [B] [] (cl * 1280) indices_c) as Hr.
    cbn [map app] in Hr. rewrite Hr by (rewrite ?Hc; simpl; nia). clear Hr. cbn [bind].
    pose proof (@TFacts.reshape_hole Z [B] [] (fl * 80) indices_d) as Hr.
    cbn [map app] in Hr. rewrite Hr by (rewrite ?Hd; simpl; nia). clear Hr. cbn [bind].
    rewrite Ecodes. cbn [bind ctx_res dyn_res fst snd]. fold D. rewrite Eq1. cbn [bind].
    rewrite Eq1'. cbn [bind]. rewrite Equant2. cbn [bind].
    rewrite Ecodes_d. cbn [bind]. fold D2.
    change (8 * 10) with 80. rewrite Eq2. cbn [bind].
    rewrite Eq2'. cbn [bind]. rewrite Hp. fold c. rewrite Edep. cbn [bind].
    rewrite Edec. cbn [bind]. rewrite Sdep. cbn [nth_error].
    rewrite (ShapeFacts.batch_after_ok B cl Hfl). cbn [bind].
    rewrite Econd. cbn [bind]. rewrite Ecdec. cbn [bind].
    rewrite ShapeFacts.py_dim_nat. cbn [bind].
    unfold T.last3, T.ndim. rewrite Scd, Sd. cbn [length Nat.sub skipn map].
    pose proof (@TFacts.reshape_exact Q [B; cl; Co; Ho; Wo] context_dec) as Hr.
    cbn [map] in Hr. rewrite Hr by (rewrite Scd; simpl; nia). clear Hr. cbn [bind].
    pose proof (@TFacts.reshape_exact Q [B; fl; Co; Ho; Wo] dec) as Hr.
    cbn [map] in Hr. rewrite Hr by (rewrite Sd; simpl; nia). clear Hr. cbn [bind].
    rewrite Ecat. reflexivity.
  - rewrite Fc. cbn [data]. exact (@tensor_eta Q context_dec _ Scd).
  - rewrite Ff. cbn [data]. exact (@tensor_eta Q dec _ Sd).
Qed.


End DetokenizeFacts.

Module SmallDecoding.

Import CompressiveVQModelFSQ.

Lemma fit_length (s : list nat) (l : list Q) : length (Small.fit s l) = T.numel s.
Proof.
  unfold Small.fit. rewrite length_firstn, length_app, repeat_length. lia.
Qed.

Lemma small_decoding_contract (cl : nat) : decoding_contract (Small.build cl) 1 32 40.
Proof.
  constructor.
  - intros x B N Hx. cbn. rewrite Hx. eexists. split; reflexivity.
  - intros x B N Hx. cbn. rewrite Hx. eexists. split; reflexivity.
  - intros x N Hx. cbn in *. unfold Small.conv. rewrite Hx. cbn.
    eexists. split; reflexivity.
  - intros x M L Hx. cbn in *. unfold Small.linear. rewrite Hx. cbn.
    eexists. split; reflexivity.
  - intros x N Hx. cbn in *. unfold Small.with_features, Small.conv, T.size. rewrite Hx.
    cbn [bind Nat.eqb nth_error]. eexists. eexists. split; [reflexivity|].
    split; [unfold T.wf; cbn [data shape]; apply fit_length|].
    split; [reflexivity|].
    constructor; [|constructor]. exists 1, 1, 1. split; [lia | reflexivity].
  - intros x fs M Hx _. cbn in *. unfold Small.ignoring_features, Small.conv. rewrite Hx.
    cbn [bind Nat.eqb]. eexists. split; [reflexivity|].
    split; [unfold T.wf; cbn [data shape]; apply fit_length | reflexivity].
Qed.


End SmallDecoding.

Module DetokenizeEdges.

Import CompressiveVQModelFSQ.






End DetokenizeEdges.

(** ** [forward] and the segment length *)

Module ForwardFacts.

Import CompressiveVQModelFSQ.

Lemma condition_features_needs_length
      (t cl : nat) (rows : result nat) (n : result Z) (fs : list (tensor Q)) :
  returns n = false ->
  1 < cl \/ fs <> [] ->
  returns (condition_features t cl rows n fs) = false.
Proof.
  intros Hn Hor. unfold condition_features.
  destruct (Nat.ltb_spec 1 cl) as [Hgt|Hle].
  - apply TokenizeEdges.bind_never. intros r. apply TokenizeEdges.bind_never_l. exact Hn.
  - destruct Hor as [Hgt|Hfs]; [lia|].
    destruct fs as [|f fs]; [contradiction|].
    cbn [mapM]. apply TokenizeEdges.bind_never_l.
    unfold repeat_single. apply TokenizeEdges.bind_never. intros f1.
    apply TokenizeEdges.bind_never_l. apply TokenizeEdges.bind_never_l. exact Hn.
Qed.

Lemma read_segment_len_missing (st : attrs) :
  segment_len st = Unset \/ segment_len st = Holds None ->
  returns (read_segment_len st) = false.
Proof. unfold read_segment_len. intros [-> | ->]; reflexivity. Qed.







End ForwardFacts.

(** ** [decode] when it raises *)

Module DecodeEdges.

Import CompressiveVQModelFSQ.



End DecodeEdges.

(** ** [AverageMeter]: the average stays within the values *)

Module AverageMeterBounds.

Import AverageMeter.
Import Lqa.

Lemma weighted_sum_bounds (lo hi : Q) (calls : list (Q * Z)) :
  Forall (fun c => (0 < snd c)%Z /\ (lo <= fst c <= hi)%Q) calls ->
  (lo * inject_Z (total_count calls) <= weighted_sum calls)%Q /\
  (weighted_sum calls <= hi * inject_Z (total_count calls))%Q.
Proof.
  induction 1 as [|c calls [Hn [Hlo Hhi]] _ [IHlo IHhi]]; cbn [total_count weighted_sum].
  - change (inject_Z 0) with 0%Q. split; lra.
  - rewrite inject_Z_plus.
    assert (Hp : (0 < inject_Z (snd c))%Q) by (rewrite <- (Zlt_Qlt 0); exact Hn).
    split; nra.
Qed.

Lemma total_count_pos (calls : list (Q * Z)) :
  calls <> [] -> Forall (fun c => (0 < snd c)%Z) calls -> (0 < total_count calls)%Z.
Proof.
  intros Hne Hall. destruct calls as [|c calls]; [contradiction|].
  inversion Hall as [|? ? Hc Hrest]; subst. cbn [total_count].
  assert (0 <= total_count calls)%Z; [|lia].
  clear -Hrest. induction Hrest; cbn [total_count]; lia.
Qed.



End AverageMeterBounds.

(** ** [gradient_penalty]: sign, zeros and the empty batch *)

Module GradientPenaltySign.

Import GradientPenalty.
Local Open Scope R_scope.

Lemma sumR_nonneg (l : list R) : Forall (fun v => 0 <= v) l -> 0 <= sumR l.
Proof. induction 1; cbn [sumR fold_right]; [lra | fold (sumR l); lra]. Qed.

Lemma sumR_zero (l : list R) :
  Forall (fun v => 0 <= v) l -> (sumR l = 0 <-> Forall (fun v => v = 0) l).
Proof.
  induction 1 as [|v l Hv Hl IH]; cbn [sumR fold_right].
  - split; [constructor | reflexivity].
  - fold (sumR l). pose proof (sumR_nonneg Hl) as Hs. split.
    + intros E. constructor; [lra | apply IH; lra].
    + intros F. inversion F as [|? ? Ev Fl]; subst. apply IH in Fl. lra.
Qed.

Lemma squares_nonneg (l : list R) : Forall (fun v => 0 <= v) (map (fun n => (n - 1) ^ 2) l).
Proof. apply Forall_map, Forall_forall. intros n _. apply pow2_ge_0. Qed.

Lemma mean_of_squares (l : list R) (s : list nat) :
  0 <= mean (Tensor s (map (fun n => (n - 1) ^ 2) l)) /\
  (mean (Tensor s (map (fun n => (n - 1) ^ 2) l)) = 0 <-> Forall (fun n => n = 1) l).
Proof.
  unfold mean. cbn [data]. rewrite length_map.
  pose proof (sumR_nonneg (squares_nonneg l)) as Hs.
  pose proof (sumR_zero (squares_nonneg l)) as Hz.
  assert (Hall : Forall (fun v => v = 0) (map (fun n => (n - 1) ^ 2) l)
                 <-> Forall (fun n => n = 1) l).
  { rewrite Forall_map. split; intros F; (eapply Forall_impl; [|exact F]);
      cbn beta; intros n Hn; cbn [pow] in *; nra. }
  destruct l as [|n l].
  - cbn [map sumR fold_right length INR]. split; [|split; [constructor|intros _]];
      unfold Rdiv; rewrite Rmult_0_l; lra.
  - set (L := n :: l) in *.
    assert (Hlen : 0 < INR (length L)) by (apply lt_0_INR; cbn; lia).
    split.
    + apply Rmult_le_pos; [exact Hs | left; apply Rinv_0_lt_compat; exact Hlen].
    + rewrite <- Hall, <- Hz. split.
      * intros E. apply (Rmult_eq_compat_r (INR (length L))) in E.
        unfold Rdiv in E. rewrite Rmult_assoc, Rinv_l, Rmult_1_r, Rmult_0_l in E by lra.
        exact E.
      * intros ->. unfold Rdiv. apply Rmult_0_l.
Qed.

Lemma penalty_nonneg (grad : autograd) (images output : tensor R) (w p : R) :
  gradient_penalty grad images output (Some w) = Ok p -> 0 <= w -> 0 <= p.
Proof.
  unfold gradient_penalty. intros H Hw.
  destruct (T.size (grad output images) 0) as [bsz|e]; [|discriminate H].
  cbn [bind] in H.
  destruct (T.reshape [Some bsz; None] (grad output images)) as [flat|e]; [|discriminate H].
  cbn [bind] in H.
  destruct (norm2_dim1 flat) as [norms|e]; [|discriminate H].
  cbn [bind] in H. injection H as <-.
  unfold T.mapT.
  change (map (fun n : R => (n - 1) * ((n - 1) * 1)) (data norms))
    with (map (fun n : R => (n - 1) ^ 2) (data norms)).
  apply Rmult_le_pos; [exact Hw|].
  apply (mean_of_squares (data norms) (shape norms)).
Qed.





End GradientPenaltySign.

(** ** The training loop: which step, which layout, which scaling *)

Module TrainSteps.

Import Train.



Lemma generator_step_without_accumulation (a : args) (i : nat) :
  gradient_accumulation_steps a = 0 -> generator_step a i = Raise ZeroDivisionError.
Proof. unfold generator_step. intros ->. reflexivity. Qed.





End TrainSteps.

(** ** Checkpoints: what a save leaves and what a resume reads back *)

Module CheckpointRoundTrip.

Import Checkpoint.
Import DecimalZ DecimalPos DecimalFacts.
Local Open Scope string_scope.

Ltac digit_value :=
  try match goal with
      | |- context [Z.of_nat ?n] =>
          let v := eval vm_compute in (Z.of_nat n) in change (Z.of_nat n) with v
      end.

Lemma digits_digit (c : ascii) (d : Z) (s : string) (acc : Z) (b : bool) :
  Py.digit_of c = Some d -> Py.digits (String c s) acc b = Py.digits s (10 * acc + d)%Z true.
Proof. intros H. cbn [Py.digits]. rewrite H. reflexivity. Qed.

Lemma digits_acc (u : Decimal.uint) (acc : positive) (b : bool) :
  u <> Decimal.Nil \/ b = true ->
  Py.digits (NilEmpty.string_of_uint u) (Z.pos acc) b = Some (Z.pos (Pos.of_uint_acc u acc)).
Proof.
  revert acc b. induction u; intros acc b Hb; cbn [NilEmpty.string_of_uint Pos.of_uint_acc].
  1: destruct Hb as [Hb | ->]; [contradiction | reflexivity].
  all: erewrite digits_digit by reflexivity.
  all: rewrite <- (IHu _ true) by (right; reflexivity).
  all: f_equal; digit_value; lia.
Qed.

Lemma digits_zero (u : Decimal.uint) (b : bool) :
  u <> Decimal.Nil \/ b = true ->
  Py.digits (NilEmpty.string_of_uint u) 0 b = Some (Z.of_N (Pos.of_uint u)).
Proof.
  revert b. induction u; intros b Hb; cbn [NilEmpty.string_of_uint Pos.of_uint].
  1: destruct Hb as [Hb | ->]; [contradiction | reflexivity].
  1: erewrite digits_digit by reflexivity; apply IHu; right; reflexivity.
  all: erewrite digits_digit by reflexivity.
  all: cbn [Z.of_N]; rewrite <- (@digits_acc u _ true) by (right; reflexivity).
  all: f_equal.
Qed.

Lemma rstrip_digits (u : Decimal.uint) :
  Py.rstrip (NilEmpty.string_of_uint u) = NilEmpty.string_of_uint u.
Proof.
  induction u; cbn [NilEmpty.string_of_uint Py.rstrip]; rewrite ?IHu; reflexivity.
Qed.

Lemma strip_digits (u : Decimal.uint) :
  u <> Decimal.Nil ->
  Py.rstrip (Py.lstrip (NilEmpty.string_of_uint u)) = NilEmpty.string_of_uint u.
Proof.
  intros Hu. destruct u; try contradiction; cbn [NilEmpty.string_of_uint].
  all: match goal with
       | |- Py.rstrip (Py.lstrip (String ?c ?s)) = _ =>
           change (Py.lstrip (String c s)) with (String c s)
       end.
  all: cbn [Py.rstrip]; rewrite rstrip_digits; reflexivity.
Qed.

Lemma int_unsigned (u : Decimal.uint) :
  u <> Decimal.Nil ->
  Py.int (NilEmpty.string_of_uint u) = Ok (Z.of_N (Pos.of_uint u)).
Proof.
  intros Hu. unfold Py.int. rewrite (strip_digits Hu).
  pose proof (@digits_zero u false (or_introl Hu)) as Hd.
  destruct u; try contradiction; cbn [NilEmpty.string_of_uint] in *; rewrite Hd; reflexivity.
Qed.

Lemma int_negative (u : Decimal.uint) :
  u <> Decimal.Nil ->
  Py.int (String "-" (NilEmpty.string_of_uint u)) = Ok (- Z.of_N (Pos.of_uint u))%Z.
Proof.
  intros Hu. unfold Py.int.
  change (Py.lstrip (String "-" (NilEmpty.string_of_uint u)))
    with (String "-" (NilEmpty.string_of_uint u)).
  cbn [Py.rstrip]. rewrite rstrip_digits.
  pose proof (@digits_zero u false (or_introl Hu)) as Hd.
  destruct u; try contradiction; cbn [NilEmpty.string_of_uint] in *.
  all: match goal with
       | |- context [if ?b then "" else ?s] => change (if b then "" else s) with s
       end.
  all: cbv beta iota; rewrite Hd; reflexivity.
Qed.

Lemma nilzero_nonnil (u : Decimal.uint) :
  u <> Decimal.Nil -> NilZero.string_of_uint u = NilEmpty.string_of_uint u.
Proof. destruct u; [contradiction | reflexivity..]. Qed.

(** [int(str(n)) == n]: the step an f-string writes into a name is read
    back by [int]. *)
Lemma int_str (z : Z) : Py.int (Py.str z) = Ok z.
Proof.
  unfold Py.str. destruct z as [|p|p]; [reflexivity| |];
    cbn [Z.to_int NilZero.string_of_int];
    rewrite nilzero_nonnil by apply Unsigned.to_uint_nonnil.
  - rewrite int_unsigned by apply Unsigned.to_uint_nonnil.
    rewrite Unsigned.of_to. reflexivity.
  - rewrite int_negative by apply Unsigned.to_uint_nonnil.
    rewrite Unsigned.of_to. reflexivity.
Qed.

(** *** Splitting the name of a checkpoint *)

Lemma split_go_miss (sep : string) (c : ascii) (s cur : string) :
  String.prefix sep (String c s) = false ->
  Py.split_go sep (String c s) 0 cur = Py.split_go sep s 0 (cur ++ String c "").
Proof. intros H. cbn [Py.split_go]. rewrite H. reflexivity. Qed.

Section NoSeparator.

Variable sep : string.
Hypothesis miss_digit : forall u, String.prefix sep (NilEmpty.string_of_uint u) = false.
Hypothesis miss_sign : forall u, String.prefix sep (String "-" (NilEmpty.string_of_uint u)) = false.

Lemma split_go_unsigned (u : Decimal.uint) (cur : string) :
  Py.split_go sep (NilEmpty.string_of_uint u) 0 cur = [cur ++ NilEmpty.string_of_uint u].
Proof.
  revert cur. induction u; intros cur;
    try (pose proof (miss_digit (Decimal.D0 u)) as H0; pose proof (miss_digit (Decimal.D1 u)) as H1;
         pose proof (miss_digit (Decimal.D2 u)) as H2; pose proof (miss_digit (Decimal.D3 u)) as H3;
         pose proof (miss_digit (Decimal.D4 u)) as H4; pose proof (miss_digit (Decimal.D5 u)) as H5;
         pose proof (miss_digit (Decimal.D6 u)) as H6; pose proof (miss_digit (Decimal.D7 u)) as H7;
         pose proof (miss_digit (Decimal.D8 u)) as H8; pose proof (miss_digit (Decimal.D9 u)) as H9);
    cbn [NilEmpty.string_of_uint] in *.
  1: cbn [Py.split_go]; rewrite CheckpointFacts.append_empty_r; reflexivity.
  all: rewrite split_go_miss by assumption.
  all: rewrite IHu, CheckpointFacts.append_snoc; reflexivity.
Qed.

Lemma split_go_str (z : Z) (cur : string) :
  Py.split_go sep (Py.str z) 0 cur = [cur ++ Py.str z].
Proof.
  unfold Py.str. destruct (Z.to_int z) as [u|u]; cbn [NilZero.string_of_int].
  - destruct u; try apply split_go_unsigned.
    cbn [NilZero.string_of_uint].
    pose proof (miss_digit (Decimal.D0 Decimal.Nil)) as H0.
    cbn [NilEmpty.string_of_uint] in H0.
    rewrite split_go_miss by exact H0. reflexivity.
  - assert (E : forall v, Py.split_go sep (String "-" (NilEmpty.string_of_uint v)) 0 cur
                          = [cur ++ String "-" (NilEmpty.string_of_uint v)]).
    { intros v. rewrite split_go_miss by apply miss_sign.
      rewrite split_go_unsigned, CheckpointFacts.append_snoc. reflexivity. }
    destruct u; try apply E.
    cbn [NilZero.string_of_uint]. exact (E (Decimal.D0 Decimal.Nil)).
Qed.

End NoSeparator.

Lemma name_pieces (step : Z) :
  Py.split (checkpoint_name "tokenizer" step) "-tokenizer" = ["checkpoint"; Py.str step].
Proof.
  assert (Hhead : forall rest, Py.split ("checkpoint-tokenizer" ++ rest) "-tokenizer"
                               = "checkpoint" :: Py.split_go "-tokenizer" rest 0 "")
    by (intros rest; destruct rest; vm_compute; reflexivity).
  unfold checkpoint_name.
  change ("checkpoint-" ++ "tokenizer" ++ Py.str step)
    with ("checkpoint-tokenizer" ++ Py.str step).
  rewrite Hhead. rewrite split_go_str.
  - reflexivity.
  - intros u. destruct u; reflexivity.
  - intros u. destruct u; reflexivity.
Qed.

Lemma name_has_no_slash (step : Z) :
  Py.split_go "/" (checkpoint_name "tokenizer" step) 0 "" = [checkpoint_name "tokenizer" step].
Proof.
  assert (Hhead : forall rest, Py.split_go "/" ("checkpoint-tokenizer" ++ rest) 0 ""
                               = Py.split_go "/" rest 0 "checkpoint-tokenizer")
    by (intros rest; vm_compute; reflexivity).
  unfold checkpoint_name.
  change ("checkpoint-" ++ "tokenizer" ++ Py.str step)
    with ("checkpoint-tokenizer" ++ Py.str step).
  rewrite Hhead. rewrite split_go_str.
  - reflexivity.
  - intros u. destruct u; reflexivity.
  - intros u. destruct u; reflexivity.
Qed.

Lemma prefix_empty (s : string) : String.prefix "" s = true.
Proof. destruct s; reflexivity. Qed.

(** [os.path.basename] of a path that ends in a name without a slash. *)
Lemma basename_of_join (dir name : string) :
  Py.split_go "/" name 0 "" = [name] ->
  Py.os_path_basename (dir ++ "/" ++ name) = name.
Proof.
  intros Hname. unfold Py.os_path_basename, Py.split.
  change (dir ++ "/" ++ name) with (dir ++ String "/" name).
  assert (H : forall cur, exists pre,
             Py.split_go "/" (dir ++ String "/" name) 0 cur = (pre ++ [name])%list).
  { induction dir as [|c d IH]; intros cur.
    - exists [cur]. cbn [append Py.split_go String.prefix].
      destruct (ascii_dec "/" "/") as [_|N]; [|contradiction].
      rewrite prefix_empty. change (String.length "/" - 1) with 0.
      rewrite Hname. reflexivity.
    - cbn [append Py.split_go].
      destruct (String.prefix "/" (String c (d ++ String "/" name))).
      + change (String.length "/" - 1) with 0. destruct (IH "") as [pre E].
        exists (cur :: pre). rewrite E. reflexivity.
      + destruct (IH (cur ++ String c "")) as [pre E]. exists pre. exact E. }
  destruct (H "") as [pre E]. rewrite E. apply last_last.
Qed.

Lemma length_append (s t : string) :
  String.length (s ++ t) = String.length s + String.length t.
Proof. induction s as [|c s IH]; cbn [append String.length]; [reflexivity | rewrite IH; lia]. Qed.

Lemma path_is_not_latest (dir : string) (step : Z) :
  (dir ++ "/" ++ checkpoint_name "tokenizer" step =? "latest") = false.
Proof.
  apply String.eqb_neq. intros E. apply (f_equal String.length) in E.
  unfold checkpoint_name in E. rewrite !length_append in E. cbn [String.length] in E. lia.
Qed.


(** *** What [latest_checkpoint_only] removes *)

Lemma tokenizer_name_is_kept (a : args) (listing : list string) (step k : Z) :
  In (checkpoint_name "tokenizer" k) listing ->
  In (checkpoint_name "tokenizer" k) (save_tokenizer_checkpoint a listing step).
Proof.
  intros Hin. unfold save_tokenizer_checkpoint, save_checkpoint.
  set (new := checkpoint_name "tokenizer" step).
  assert (Hin' : In (checkpoint_name "tokenizer" k)
                    (if existsb (String.eqb new) listing
                     then listing else (listing ++ [new])%list)).
  { destruct (existsb (String.eqb new) listing); [exact Hin|].
    apply in_or_app. left. exact Hin. }
  destruct (latest_checkpoint_only a); [|exact Hin'].
  apply filter_In. split; [exact Hin'|].
  assert (Hcmp : forall u v, ("checkpoint-tokenizer" ++ u =? "checkpoint-" ++ v)
                             = (String "t" ("okenizer" ++ u) =? v))
    by (intros u v; vm_compute; reflexivity).
  unfold checkpoint_name.
  change ("checkpoint-" ++ "tokenizer" ++ Py.str k)
    with ("checkpoint-tokenizer" ++ Py.str k).
  rewrite Hcmp, CheckpointFacts.str_not_t. reflexivity.
Qed.



End CheckpointRoundTrip.

(** ** The loss of a discriminator step *)

Module DiscriminatorFacts.

Import DiscriminatorStep.
Local Open Scope R_scope.

Lemma hinge_entries_nonneg (x y : tensor R) :
  Forall (fun v => 0 <= v) (data (add (relu x) (relu y))).
Proof.
  unfold add, relu, T.mapT. cbn [data shape].
  apply Forall_map, Forall_forall. intros [u v] Hin. cbn [fst snd].
  apply in_combine_l in Hin as Hu. apply in_combine_r in Hin as Hv.
  apply in_map_iff in Hu. destruct Hu as [u0 [<- _]].
  apply in_map_iff in Hv. destruct Hv as [v0 [<- _]].
  pose proof (Rmax_l 0 u0). pose proof (Rmax_l 0 v0). lra.
Qed.

Lemma mean_nonneg (x : tensor R) :
  Forall (fun v => 0 <= v) (data x) -> 0 <= GradientPenalty.mean x.
Proof.
  intros H. unfold GradientPenalty.mean.
  pose proof (GradientPenaltySign.sumR_nonneg H) as Hs.
  destruct (data x) as [|v l] eqn:E.
  - cbn. unfold Rdiv. rewrite Rmult_0_l. lra.
  - apply Rmult_le_pos; [exact Hs|]. left. apply Rinv_0_lt_compat.
    apply lt_0_INR. cbn. lia.
Qed.



(** Before [disc_start] the discriminator is not trained. *)
Lemma discriminator_step_is_skipped
      (c : collaborators) (a : Train.args) (global_step : Z) (pixel_values fmap : tensor R) :
  (global_step < Train.disc_start a)%Z ->
  discriminator_loss c a global_step pixel_values fmap = Ok None.
Proof.
  intros H. unfold discriminator_loss.
  destruct (Z.leb_spec (Train.disc_start a) global_step); [lia | reflexivity].
Qed.

End DiscriminatorFacts.

(** ** Patches of the dynamics latents *)

Module PatchFacts.

Import CompressiveVQModelFSQ.

Lemma whole_patches (k p : nat) : 0 < p -> 0 < k -> (k * p - p) / p + 1 = k.
Proof.
  intros Hp Hk. replace (k * p - p) with ((k - 1) * p) by nia.
  rewrite Nat.div_mul by lia. lia.
Qed.



End PatchFacts.

(** ** [tokenize], then [detokenize] *)

Module RoundTripShapes.

Import CompressiveVQModelFSQ.



End RoundTripShapes.
